(** * openclaw-linear-plugin: the Linear client and its tool handlers

    A shallow embedding of [client.ts], [tools.ts], [index.ts] and
    [types.ts].  The remote GraphQL service is a parameter: a state
    machine that answers each document the client sends.  Asynchronous
    code that awaits each request in turn becomes a state-and-exception
    monad over the remote's state and the trace of requests sent. *)

From Stdlib Require Import String Ascii List ZArith Bool Lia DecimalString.
Import ListNotations.
Open Scope string_scope.

(** ** JavaScript string and array primitives used by the sources.
    Strings are byte strings.  [toLowerCase] folds the letters A-Z, which is
    what the code's [toLowerCase] does on ASCII text; keys and names with
    letters outside ASCII are outside this model. *)
Module Js.

Definition nl : string := String (ascii_of_nat 10) EmptyString.

(** The double-quote character, as it appears inside template strings. *)
Definition dquote : string := String (ascii_of_nat 34) EmptyString.

Definition lower_ascii (c : ascii) : ascii :=
  let n := nat_of_ascii c in
  if (65 <=? n)%nat && (n <=? 90)%nat then ascii_of_nat (n + 32) else c.

Fixpoint toLowerCase (s : string) : string :=
  match s with
  | EmptyString => EmptyString
  | String c r => String (lower_ascii c) (toLowerCase r)
  end.

(** [xs.join(sep)] *)
Fixpoint join (sep : string) (xs : list string) : string :=
  match xs with
  | [] => EmptyString
  | [x] => x
  | x :: r => x ++ sep ++ join sep r
  end.

(** [s.split(sep)[0]] for a one-character separator: the text before the
    first occurrence of [sep], or all of [s] when there is none. *)
Fixpoint split_head (sep : ascii) (s : string) : string :=
  match s with
  | EmptyString => EmptyString
  | String c r => if Ascii.eqb c sep then EmptyString else String c (split_head sep r)
  end.

(** [s.startsWith(p)] *)
Fixpoint startsWith (s p : string) {struct p} : bool :=
  match p, s with
  | EmptyString, _ => true
  | String a p', String b s' => Ascii.eqb a b && startsWith s' p'
  | String _ _, EmptyString => false
  end.

(** [s.includes(p)] *)
Fixpoint includes (s p : string) : bool :=
  startsWith s p ||
  match s with
  | EmptyString => false
  | String _ r => includes r p
  end.

(** Truthiness of a string value: every string but the empty one. *)
Definition truthy (s : string) : bool := negb (s =? EmptyString).

(** Truthiness of [string | undefined] and [string | null]. *)
Definition truthy_opt (o : option string) : bool :=
  match o with
  | Some s => truthy s
  | None => false
  end.

(** [xs.find(p)] *)
Definition find {A} (p : A -> bool) (xs : list A) : option A := List.find p xs.

End Js.

(** ** types.ts *)

Record LinearUser := {
  user_id : string;
  user_name : string;
  user_email : string;
  user_active : bool
}.

Record TicketStatus := {
  status_id : string;
  status_name : string
}.

Record LinearTicket := {
  id : string;
  identifier : string;
  title : string;
  description : option string;
  status : TicketStatus;
  priority : Z;
  priorityLabel : string;
  assignee : option LinearUser;
  url : string
}.

Record PluginConfig := {
  apiKey : option string
}.

(** A missing property is [None]: the object is sparse. *)
Record TicketUpdateInput := {
  upd_title : option string;
  upd_description : option string;
  upd_stateId : option string;
  upd_priority : option Z;
  upd_assigneeId : option string
}.

Record CreateTicketInput := {
  new_title : string;
  new_teamId : string;
  new_description : option string;
  new_assigneeId : option string
}.

(** ** Payloads of the remote service, as selected by the documents *)

Record RawUser := {
  raw_user_id : string;
  raw_user_name : string;
  raw_user_email : string;
  raw_user_active : bool
}.

Record RawState := {
  state_id : string;
  state_name : string
}.

Record RawIssue := {
  issue_id : string;
  issue_identifier : string;
  issue_title : string;
  issue_description : option string;
  issue_url : string;
  issue_priority : Z;
  issue_priorityLabel : string;
  issue_state : RawState;
  issue_assignee : option RawUser
}.

Record Team := {
  team_id : string;
  team_key : string;
  team_name : string
}.

(** The [IssueFilter] built by [listTickets]. *)
Record IssueFilter := {
  filter_teamKey : string;
  filter_stateName : option string
}.

(** One request sent through [GraphQLClient.request]: the document and its
    variables. *)
Inductive Call :=
| CreateIssue (input : CreateTicketInput)
| GetIssue (ident : string)
| SearchIssue (ident : string) (first : Z)
| UpdateIssue (issueId : string) (updates : TicketUpdateInput)
| ListIssues (filter : IssueFilter) (limit : Z)
| GetUsers
| GetTeams
| GetStates (teamId : string).

Definition is_mutation (c : Call) : bool :=
  match c with
  | CreateIssue _ | UpdateIssue _ _ => true
  | _ => false
  end.

(** What a request comes back with: the decoded data, or the message of the
    error [request] rejects with. *)
Inductive Reply (A : Type) :=
| Data (a : A)
| Rejected (message : string).
Arguments Data {A} a.
Arguments Rejected {A} message.

(** The remote service: one answer function per document of [client.ts]
    ([issuesByIdentifier] answers the SearchIssue document, [issues] the
    ListIssues document).  Every request may change its state. *)
Record Remote := {
  RState : Type;
  issueCreate : RState -> CreateTicketInput -> RState * Reply (bool * option RawIssue);
  issue : RState -> string -> RState * Reply (option RawIssue);
  issuesByIdentifier : RState -> string -> Z -> RState * Reply (list RawIssue);
  issueUpdate : RState -> string -> TicketUpdateInput -> RState * Reply (bool * option RawIssue);
  issues : RState -> IssueFilter -> Z -> RState * Reply (list RawIssue);
  users : RState -> RState * Reply (list RawUser);
  teams : RState -> RState * Reply (list Team);
  teamStates : RState -> string -> RState * Reply (list RawState)
}.

(** ** Exceptions *)

Inductive Thrown :=
| RequestError (message : string)   (* [request] rejected *)
| NewError (message : string)       (* [throw new Error(message)] *)
| TypeError (message : string).     (* a property read on [null] *)

(** [error instanceof Error ? error.message : String(error)]: the three
    kinds are all instances of [Error]. *)
Definition message_of (e : Thrown) : string :=
  match e with
  | RequestError m | NewError m | TypeError m => m
  end.

Inductive Outcome (A : Type) :=
| Returned (a : A)
| Threw (e : Thrown).
Arguments Returned {A} a.
Arguments Threw {A} e.

Section Client.

Variable R : Remote.

Record World := {
  remote : RState R;
  trace : list Call
}.

Definition M (A : Type) : Type := World -> Outcome A * World.

Definition ret {A} (a : A) : M A := fun w => (Returned a, w).

Definition throw {A} (e : Thrown) : M A := fun w => (Threw e, w).

Definition bind {A B} (m : M A) (k : A -> M B) : M B :=
  fun w =>
    match m w with
    | (Returned a, w') => k a w'
    | (Threw e, w') => (Threw e, w')
    end.

(** [try { body } catch (e) { handler }] *)
Definition try_catch {A} (body : M A) (handler : Thrown -> M A) : M A :=
  fun w =>
    match body w with
    | (Returned a, w') => (Returned a, w')
    | (Threw e, w') => handler e w'
    end.

(** [await this.client.request(document, variables)] *)
Definition request {A} (c : Call) (answer : RState R -> RState R * Reply A) : M A :=
  fun w =>
    let (s, r) := answer (remote w) in
    let w' := {| remote := s; trace := (trace w ++ [c])%list |} in
    match r with
    | Data a => (Returned a, w')
    | Rejected m => (Threw (RequestError m), w')
    end.

End Client.

Arguments remote {R} w.
Arguments trace {R} w.
Arguments ret {R A} a.
Arguments throw {R A} e.
Arguments bind {R A B} m k.
Arguments try_catch {R A} body handler.
Arguments request {R A} c answer.

Notation "x <- m ;; k" := (bind m (fun x => k))
  (at level 61, m at next level, right associativity).

(** ** client.ts: class LinearClient *)
Section LinearClient.

Variable R : Remote.

Definition mapUser (user : RawUser) : LinearUser :=
  {| user_id := raw_user_id user;
     user_name := raw_user_name user;
     user_email := raw_user_email user;
     user_active := raw_user_active user |}.

Definition mapIssue (i : RawIssue) : LinearTicket :=
  {| id := issue_id i;
     identifier := issue_identifier i;
     title := issue_title i;
     description := issue_description i;
     status := {| status_id := state_id (issue_state i);
                  status_name := state_name (issue_state i) |};
     priority := issue_priority i;
     priorityLabel := issue_priorityLabel i;
     assignee := option_map mapUser (issue_assignee i);
     url := issue_url i |}.

(** [this.mapIssue(x)] where the payload [x] may be [null]: reading
    [issue.id] then throws. *)
Definition mapIssue_nullable (i : option RawIssue) : M R LinearTicket :=
  match i with
  | Some i => ret (mapIssue i)
  | None => throw (TypeError "Cannot read properties of null (reading 'id')")
  end.

Definition createTicket (input : CreateTicketInput) : M R LinearTicket :=
  result <- request (CreateIssue input) (fun s => issueCreate R s input) ;;
  if negb (fst result)
  then throw (NewError "Failed to create ticket")
  else mapIssue_nullable (snd result).

Definition not_found (ident : string) : Thrown :=
  NewError ("Ticket " ++ ident ++ " not found").

(** The [catch] block of [getTicket]: the search by identifier. *)
Definition searchTicket (ident : string) : M R LinearTicket :=
  nodes <- request (SearchIssue ident 1) (fun s => issuesByIdentifier R s ident 1) ;;
  match nodes with
  | [] => throw (not_found ident)
  | node :: _ => ret (mapIssue node)
  end.

(** The [try] block of [getTicket]: the single-entity query. *)
Definition primaryLookup (ident : string) : M R LinearTicket :=
  result <- request (GetIssue ident) (fun s => issue R s ident) ;;
  mapIssue_nullable result.

Definition getTicket (ident : string) : M R LinearTicket :=
  try_catch (primaryLookup ident) (fun _ => searchTicket ident).

Definition updateTicket (ident : string) (updates : TicketUpdateInput)
  : M R LinearTicket :=
  ticket <- getTicket ident ;;
  result <- request (UpdateIssue (id ticket) updates)
                    (fun s => issueUpdate R s (id ticket) updates) ;;
  if negb (fst result)
  then throw (NewError "Failed to update ticket")
  else mapIssue_nullable (snd result).

Definition no_updates : TicketUpdateInput :=
  {| upd_title := None; upd_description := None; upd_stateId := None;
     upd_priority := None; upd_assigneeId := None |}.

(** The object literal [{ assigneeId: userId }]. *)
Definition assignee_only (userId : string) : TicketUpdateInput :=
  {| upd_title := None; upd_description := None; upd_stateId := None;
     upd_priority := None; upd_assigneeId := Some userId |}.

Definition assignTicket (ident userId : string) : M R LinearTicket :=
  updateTicket ident (assignee_only userId).

(** [limit: number = 50]: the default applies to an omitted argument. *)
Definition listTickets (teamKey : string) (status : option string)
    (limit : option Z) : M R (list LinearTicket) :=
  let limit := match limit with Some l => l | None => 50%Z end in
  let filter :=
    {| filter_teamKey := teamKey;
       filter_stateName := if Js.truthy_opt status then status else None |} in
  nodes <- request (ListIssues filter limit) (fun s => issues R s filter limit) ;;
  ret (map mapIssue nodes).

Definition getUsers : M R (list LinearUser) :=
  nodes <- request GetUsers (users R) ;;
  ret (map mapUser nodes).

Definition getTeams : M R (list Team) :=
  request GetTeams (teams R).

Definition getWorkflowStates (teamId : string) : M R (list RawState) :=
  request (GetStates teamId) (fun s => teamStates R s teamId).

End LinearClient.

(** ** tools.ts *)

(** [{ content: [{ type: "text", text }] }] *)
Record TextContent := { text : string }.
Record ToolResponse := { content : list TextContent }.

Definition textResponse (t : string) : ToolResponse :=
  {| content := [ {| text := t |} ] |}.

(** The text a response displays. *)
Definition response_text (r : ToolResponse) : string :=
  Js.join EmptyString (map text (content r)).

Definition formatTicket (ticket : LinearTicket) : string :=
  Js.join Js.nl
    [ "**" ++ identifier ticket ++ "**: " ++ title ticket;
      "Status: " ++ status_name (status ticket);
      "Priority: " ++ priorityLabel ticket;
      match assignee ticket with
      | Some u => "Assignee: " ++ user_name u
      | None => "Assignee: Unassigned"
      end;
      match description ticket with
      | Some d => if Js.truthy d then Js.nl ++ "Description:" ++ Js.nl ++ d else EmptyString
      | None => EmptyString
      end;
      Js.nl ++ "URL: " ++ url ticket ].

Definition formatTicketList (tickets : list LinearTicket) : string :=
  match tickets with
  | [] => "No tickets found."
  | _ =>
      Js.join Js.nl
        (map (fun t =>
                "- **" ++ identifier t ++ "**: " ++ title t ++ " ["
                ++ status_name (status t) ++ "] "
                ++ match assignee t with
                   | Some u => "(@" ++ user_name u ++ ")"
                   | None => EmptyString
                   end)
             tickets)
  end.

Definition formatUserList (us : list LinearUser) : string :=
  match us with
  | [] => "No users found."
  | _ =>
      Js.join Js.nl
        (map (fun u =>
                "- **" ++ user_name u ++ "** (" ++ user_email u ++ ") - ID: `"
                ++ user_id u ++ "` " ++ (if user_active u then EmptyString else "[inactive]"))
             us)
  end.

(** Parameters of the six handlers, as their TypeScript types declare them. *)
Record CreateParams := {
  cp_title : string;
  cp_projectKey : string;
  cp_description : option string;
  cp_assigneeId : option string
}.

Record ReadParams := { rp_identifier : string }.

Record UpdateParams := {
  up_identifier : string;
  up_title : option string;
  up_description : option string;
  up_status : option string;
  up_priority : option Z
}.

Record AssignParams := {
  ap_identifier : string;
  ap_userId : string
}.

Record ListParams := {
  lp_projectKey : string;
  lp_status : option string;
  lp_limit : option Z
}.

Section Tools.

Variable R : Remote.

(** [(t) => t.key.toLowerCase() === key.toLowerCase()] *)
Definition key_matches (key : string) (t : Team) : bool :=
  Js.toLowerCase (team_key t) =? Js.toLowerCase key.

(** [(s) => s.name.toLowerCase() === name.toLowerCase()] *)
Definition name_matches (name : string) (s : RawState) : bool :=
  Js.toLowerCase (state_name s) =? Js.toLowerCase name.

Definition team_not_found (key : string) (ts : list Team) : string :=
  "Team with key " ++ Js.dquote ++ key ++ Js.dquote ++ " not found. Available teams: "
  ++ Js.join ", " (map team_key ts).

Definition status_not_found (name : string) (states : list RawState) : string :=
  "Status " ++ Js.dquote ++ name ++ Js.dquote ++ " not found. Available statuses: "
  ++ Js.join ", " (map state_name states).

(** The [catch (error)] clause shared by the six handlers. *)
Definition failed (phrase : string) (e : Thrown) : M R ToolResponse :=
  ret (textResponse (phrase ++ ": " ++ message_of e)).

(** Each handler is [try { body } catch (error) { ... }]; the bodies are
    named so that the properties below can speak of them. *)

Definition create_ticket_body (params : CreateParams) : M R ToolResponse :=
  ts <- getTeams R ;;
  match Js.find (key_matches (cp_projectKey params)) ts with
  | None => ret (textResponse (team_not_found (cp_projectKey params) ts))
  | Some team =>
      ticket <- createTicket R
                  {| new_title := cp_title params;
                     new_teamId := team_id team;
                     new_description := cp_description params;
                     new_assigneeId := cp_assigneeId params |} ;;
      ret (textResponse ("Created ticket **" ++ identifier ticket ++ "**"
                         ++ Js.nl ++ Js.nl ++ "URL: " ++ url ticket))
  end.

Definition linear_create_ticket (params : CreateParams) : M R ToolResponse :=
  try_catch (create_ticket_body params) (failed "Failed to create ticket").

Definition read_ticket_body (params : ReadParams) : M R ToolResponse :=
  ticket <- getTicket R (rp_identifier params) ;;
  ret (textResponse (formatTicket ticket)).

Definition linear_read_ticket (params : ReadParams) : M R ToolResponse :=
  try_catch (read_ticket_body params) (failed "Failed to get ticket").

(** The [updates] object before the status is looked at. *)
Definition field_updates (params : UpdateParams) : TicketUpdateInput :=
  {| upd_title := if Js.truthy_opt (up_title params) then up_title params else None;
     upd_description :=
       if Js.truthy_opt (up_description params) then up_description params else None;
     upd_stateId := None;
     upd_priority := up_priority params;
     upd_assigneeId := None |}.

Definition with_stateId (u : TicketUpdateInput) (stateId : string) : TicketUpdateInput :=
  {| upd_title := upd_title u;
     upd_description := upd_description u;
     upd_stateId := Some stateId;
     upd_priority := upd_priority u;
     upd_assigneeId := upd_assigneeId u |}.

(** The status block: [inl] is the early [return] of a response, [inr] the
    [updates] object the handler goes on with. *)
Definition resolve_status (params : UpdateParams) (updates : TicketUpdateInput)
  : M R (ToolResponse + TicketUpdateInput) :=
  if Js.truthy_opt (up_status params) then
    _ <- getTicket R (up_identifier params) ;;
    let teamKey := Js.split_head "-" (up_identifier params) in
    ts <- getTeams R ;;
    match Js.find (key_matches teamKey) ts with
    | None => ret (inr updates)
    | Some team =>
        states <- getWorkflowStates R (team_id team) ;;
        let name := match up_status params with Some n => n | None => EmptyString end in
        match Js.find (name_matches name) states with
        | Some state => ret (inr (with_stateId updates (state_id state)))
        | None => ret (inl (textResponse (status_not_found name states)))
        end
    end
  else ret (inr updates).

Definition update_ticket_body (params : UpdateParams) : M R ToolResponse :=
  r <- resolve_status params (field_updates params) ;;
  match r with
  | inl response => ret response
  | inr updates =>
      ticket <- updateTicket R (up_identifier params) updates ;;
      ret (textResponse ("Updated ticket:" ++ Js.nl ++ Js.nl ++ formatTicket ticket))
  end.

Definition linear_update_ticket (params : UpdateParams) : M R ToolResponse :=
  try_catch (update_ticket_body params) (failed "Failed to update ticket").

Definition assign_ticket_body (params : AssignParams) : M R ToolResponse :=
  ticket <- assignTicket R (ap_identifier params) (ap_userId params) ;;
  let name :=
    match assignee ticket with
    | Some u => if Js.truthy (user_name u) then user_name u else "user"
    | None => "user"
    end in
  ret (textResponse ("Assigned **" ++ identifier ticket ++ "** to " ++ name)).

Definition linear_assign_ticket (params : AssignParams) : M R ToolResponse :=
  try_catch (assign_ticket_body params) (failed "Failed to assign ticket").

(** [params.limit || 50] *)
Definition limit_or_default (limit : option Z) : Z :=
  match limit with
  | Some l => if (l =? 0)%Z then 50%Z else l
  | None => 50%Z
  end.

Definition tickets_header (params : ListParams) : string :=
  "**Tickets in " ++ lp_projectKey params
  ++ (if Js.truthy_opt (lp_status params)
      then " (" ++ match lp_status params with Some s => s | None => EmptyString end ++ ")"
      else EmptyString)
  ++ ":**" ++ Js.nl ++ Js.nl.

Definition list_tickets_body (params : ListParams) : M R ToolResponse :=
  tickets <- listTickets R (lp_projectKey params) (lp_status params)
               (Some (limit_or_default (lp_limit params))) ;;
  ret (textResponse (tickets_header params ++ formatTicketList tickets)).

Definition linear_list_tickets (params : ListParams) : M R ToolResponse :=
  try_catch (list_tickets_body params) (failed "Failed to list tickets").

Definition get_users_body (_ : unit) : M R ToolResponse :=
  us <- getUsers R ;;
  ret (textResponse ("**Linear Users:**" ++ Js.nl ++ Js.nl ++ formatUserList us)).

Definition linear_get_users (u : unit) : M R ToolResponse :=
  try_catch (get_users_body u) (failed "Failed to get users").

(** The six operations as one type of invocation. *)
Inductive Invocation :=
| CreateTicket (p : CreateParams)
| ReadTicket (p : ReadParams)
| UpdateTicket (p : UpdateParams)
| AssignTicket (p : AssignParams)
| ListTickets (p : ListParams)
| ListUsers.

Definition handle (i : Invocation) : M R ToolResponse :=
  match i with
  | CreateTicket p => linear_create_ticket p
  | ReadTicket p => linear_read_ticket p
  | UpdateTicket p => linear_update_ticket p
  | AssignTicket p => linear_assign_ticket p
  | ListTickets p => linear_list_tickets p
  | ListUsers => linear_get_users tt
  end.

Definition body (i : Invocation) : M R ToolResponse :=
  match i with
  | CreateTicket p => create_ticket_body p
  | ReadTicket p => read_ticket_body p
  | UpdateTicket p => update_ticket_body p
  | AssignTicket p => assign_ticket_body p
  | ListTickets p => list_tickets_body p
  | ListUsers => get_users_body tt
  end.


End Tools.

(** ** Declared input schemas ([Type.Object], [Type.String], [Type.Number],
    [Type.Optional]) *)

Inductive TSchema :=
| TString
| TNumber (minimum maximum : option Z).

Record TProperty := {
  prop_name : string;
  prop_schema : TSchema;
  prop_optional : bool
}.

Definition TObject := list TProperty.

Definition required (n : string) (t : TSchema) : TProperty :=
  {| prop_name := n; prop_schema := t; prop_optional := false |}.

Definition optional (n : string) (t : TSchema) : TProperty :=
  {| prop_name := n; prop_schema := t; prop_optional := true |}.

Record ToolSchema := {
  tool_name : string;
  tool_description : string;
  inputSchema : TObject
}.

Definition create_ticket_schema : ToolSchema :=
  {| tool_name := "linear_create_ticket";
     tool_description :=
       "Create a new ticket/issue in Linear. Returns the created ticket's identifier and URL.";
     inputSchema :=
       [ required "title" TString;
         required "projectKey" TString;
         optional "description" TString;
         optional "assigneeId" TString ] |}.

Definition read_ticket_schema : ToolSchema :=
  {| tool_name := "linear_read_ticket";
     tool_description :=
       "Get full details of a Linear ticket by its identifier (e.g., 'PRJ-123').";
     inputSchema := [ required "identifier" TString ] |}.

Definition update_ticket_schema : ToolSchema :=
  {| tool_name := "linear_update_ticket";
     tool_description :=
       "Update an existing Linear ticket. All fields except identifier are optional.";
     inputSchema :=
       [ required "identifier" TString;
         optional "title" TString;
         optional "description" TString;
         optional "status" TString;
         optional "priority" (TNumber (Some 0%Z) (Some 4%Z)) ] |}.

Definition assign_ticket_schema : ToolSchema :=
  {| tool_name := "linear_assign_ticket";
     tool_description := "Assign a Linear ticket to a specific user.";
     inputSchema :=
       [ required "identifier" TString;
         required "userId" TString ] |}.

Definition list_tickets_schema : ToolSchema :=
  {| tool_name := "linear_list_tickets";
     tool_description :=
       "List tickets in a Linear team/project, optionally filtered by status.";
     inputSchema :=
       [ required "projectKey" TString;
         optional "status" TString;
         optional "limit" (TNumber (Some 1%Z) (Some 100%Z)) ] |}.

Definition get_users_schema : ToolSchema :=
  {| tool_name := "linear_get_users";
     tool_description :=
       "Get a list of all users in the Linear workspace. Useful for finding user IDs for assignment.";
     inputSchema := [] |}.

(** ** Checking a parameter object against a declared schema: a required
    property must be present, a present property must have the declared
    type, and a number must lie within the declared bounds. *)

Inductive JsValue :=
| JString (s : string)
| JNumber (n : Z).

Definition JsObject := list (string * JsValue).

Fixpoint property (n : string) (o : JsObject) : option JsValue :=
  match o with
  | [] => None
  | (k, v) :: r => if k =? n then Some v else property n r
  end.

Definition at_least (bound : option Z) (n : Z) : bool :=
  match bound with
  | Some b => (b <=? n)%Z
  | None => true
  end.

Definition at_most (bound : option Z) (n : Z) : bool :=
  match bound with
  | Some b => (n <=? b)%Z
  | None => true
  end.

Definition check_value (t : TSchema) (v : JsValue) : bool :=
  match t, v with
  | TString, JString _ => true
  | TNumber lo hi, JNumber n => at_least lo n && at_most hi n
  | _, _ => false
  end.

Definition check_property (o : JsObject) (p : TProperty) : bool :=
  match property (prop_name p) o with
  | Some v => check_value (prop_schema p) v
  | None => prop_optional p
  end.

Definition check (schema : TObject) (o : JsObject) : bool :=
  forallb (check_property o) schema.

Definition opt_property (n : string) (v : option JsValue) : JsObject :=
  match v with
  | Some v => [(n, v)]
  | None => []
  end.

(** The object a [linear_list_tickets] call carries. *)
Definition list_params_object (p : ListParams) : JsObject :=
  ([("projectKey", JString (lp_projectKey p))]
   ++ opt_property "status" (option_map JString (lp_status p))
   ++ opt_property "limit" (option_map JNumber (lp_limit p)))%list.

(** ** Registration: [registerLinearTools] and the plugin entry point *)
Section Register.

Variable R : Remote.

(** One [api.registerTool(schema, handler, options)] call. *)
Record Registration := {
  reg_schema : ToolSchema;
  reg_params : Type;
  reg_handler : reg_params -> M R ToolResponse;
  reg_optional : bool
}.

Inductive LogLevel := LogInfo | LogWarn | LogError.

(** The host's [PluginAPI] object with what the plugin did to it: the
    tools registered and the lines given to the logger. *)
Record PluginAPI := {
  config : PluginConfig;
  has_logger : bool;
  registered : list Registration;
  logged : list (LogLevel * string)
}.

Definition registerTool (api : PluginAPI) (r : Registration) : PluginAPI :=
  {| config := config api;
     has_logger := has_logger api;
     registered := (registered api ++ [r])%list;
     logged := logged api |}.

(** [api.logger?.info(m)], [api.logger?.warn(m)] *)
Definition log (level : LogLevel) (m : string) (api : PluginAPI) : PluginAPI :=
  if has_logger api
  then {| config := config api;
          has_logger := true;
          registered := registered api;
          logged := (logged api ++ [(level, m)])%list |}
  else api.

Definition tool {P} (s : ToolSchema) (h : P -> M R ToolResponse) : Registration :=
  {| reg_schema := s; reg_params := P; reg_handler := h; reg_optional := true |}.

Definition registerLinearTools (api : PluginAPI) (_ : PluginConfig) : PluginAPI :=
  let api := registerTool api (tool create_ticket_schema (linear_create_ticket R)) in
  let api := registerTool api (tool read_ticket_schema (linear_read_ticket R)) in
  let api := registerTool api (tool update_ticket_schema (linear_update_ticket R)) in
  let api := registerTool api (tool assign_ticket_schema (linear_assign_ticket R)) in
  let api := registerTool api (tool list_tickets_schema (linear_list_tickets R)) in
  registerTool api (tool get_users_schema (linear_get_users R)).

Definition register (api : PluginAPI) : PluginAPI :=
  if negb (Js.truthy_opt (apiKey (config api)))
  then log LogWarn "Linear plugin: apiKey not configured" api
  else
    let api := log LogInfo "Linear plugin: initializing..." api in
    let api := registerLinearTools api (config api) in
    log LogInfo "Linear plugin: 6 tools registered" api.

End Register.

Arguments reg_schema {R} _.
Arguments reg_optional {R} _.
Arguments config {R} _.
Arguments has_logger {R} _.
Arguments registered {R} _.
Arguments logged {R} _.

(** ** An in-memory remote, for running the handlers on concrete inputs *)
Module Demo.

Record Db := {
  reachable : bool;        (* does the transport reach the service *)
  readable_ids : bool;     (* does [issue(id:)] accept an identifier like ENG-1 *)
  db_teams : list Team;
  db_states : list RawState;
  db_users : list RawUser;
  db_issues : list RawIssue
}.

Definition with_issues (db : Db) (l : list RawIssue) : Db :=
  {| reachable := reachable db;
     readable_ids := readable_ids db;
     db_teams := db_teams db;
     db_states := db_states db;
     db_users := db_users db;
     db_issues := l |}.

Definition unreachable {A} (db : Db) : Db * Reply A := (db, Rejected "fetch failed").

Definition priority_label (p : Z) : string :=
  if (p =? 1)%Z then "Urgent"
  else if (p =? 2)%Z then "High"
  else if (p =? 3)%Z then "Medium"
  else if (p =? 4)%Z then "Low"
  else "No priority".

Definition team_of (i : RawIssue) : string := Js.split_head "-" (issue_identifier i).

Definition matches (f : IssueFilter) (i : RawIssue) : bool :=
  (team_of i =? filter_teamKey f)
  && match filter_stateName f with
     | Some n => state_name (issue_state i) =? n
     | None => true
     end.

Definition first_n {A} (n : Z) (l : list A) : list A := firstn (Z.to_nat n) l.

Definition apply_updates (db : Db) (u : TicketUpdateInput) (i : RawIssue) : RawIssue :=
  {| issue_id := issue_id i;
     issue_identifier := issue_identifier i;
     issue_title := match upd_title u with Some t => t | None => issue_title i end;
     issue_description :=
       match upd_description u with Some d => Some d | None => issue_description i end;
     issue_url := issue_url i;
     issue_priority := match upd_priority u with Some p => p | None => issue_priority i end;
     issue_priorityLabel :=
       match upd_priority u with
       | Some p => priority_label p
       | None => issue_priorityLabel i
       end;
     issue_state :=
       match upd_stateId u with
       | Some sid =>
           match List.find (fun s => state_id s =? sid) (db_states db) with
           | Some s => s
           | None => issue_state i
           end
       | None => issue_state i
       end;
     issue_assignee :=
       match upd_assigneeId u with
       | Some uid => List.find (fun x => raw_user_id x =? uid) (db_users db)
       | None => issue_assignee i
       end |}.

Definition on_issue (db : Db) (ident : string) : Db * Reply (option RawIssue) :=
  if negb (reachable db) then unreachable db
  else
    match List.find (fun i => (issue_id i =? ident)
                              || (readable_ids db && (issue_identifier i =? ident)))
                    (db_issues db) with
    | Some i => (db, Data (Some i))
    | None => (db, Rejected "Entity not found: Issue")
    end.

Definition on_search (db : Db) (ident : string) (first : Z) : Db * Reply (list RawIssue) :=
  if negb (reachable db) then unreachable db
  else (db, Data (first_n first (filter (fun i => issue_identifier i =? ident) (db_issues db)))).

Definition on_issues (db : Db) (f : IssueFilter) (first : Z) : Db * Reply (list RawIssue) :=
  if negb (reachable db) then unreachable db
  else if (first <? 0)%Z then (db, Rejected "Argument first must be non-negative")
  else (db, Data (first_n first (filter (matches f) (db_issues db)))).

Definition on_update (db : Db) (iid : string) (u : TicketUpdateInput)
  : Db * Reply (bool * option RawIssue) :=
  if negb (reachable db) then unreachable db
  else
    match List.find (fun i => issue_id i =? iid) (db_issues db) with
    | Some i =>
        let i' := apply_updates db u i in
        (with_issues db
           (map (fun j => if issue_id j =? iid then i' else j) (db_issues db)),
         Data (true, Some i'))
    | None => (db, Rejected "Entity not found: Issue")
    end.

Definition on_create (db : Db) (input : CreateTicketInput)
  : Db * Reply (bool * option RawIssue) :=
  if negb (reachable db) then unreachable db
  else
    match List.find (fun t => team_id t =? new_teamId input) (db_teams db),
          db_states db with
    | Some t, s :: _ =>
        let n := NilEmpty.string_of_uint (Nat.to_uint (S (length (db_issues db)))) in
        let ident := team_key t ++ "-" ++ n in
        let i :=
          {| issue_id := "issue-" ++ n;
             issue_identifier := ident;
             issue_title := new_title input;
             issue_description := new_description input;
             issue_url := "https://linear.app/demo/issue/" ++ ident;
             issue_priority := 0;
             issue_priorityLabel := priority_label 0;
             issue_state := s;
             issue_assignee :=
               match new_assigneeId input with
               | Some uid => List.find (fun x => raw_user_id x =? uid) (db_users db)
               | None => None
               end |} in
        (with_issues db (db_issues db ++ [i])%list, Data (true, Some i))
    | _, _ => (db, Rejected "Entity not found: Team")
    end.

Definition on_users (db : Db) : Db * Reply (list RawUser) :=
  if negb (reachable db) then unreachable db else (db, Data (db_users db)).

Definition on_teams (db : Db) : Db * Reply (list Team) :=
  if negb (reachable db) then unreachable db else (db, Data (db_teams db)).

Definition on_states (db : Db) (teamId : string) : Db * Reply (list RawState) :=
  if negb (reachable db) then unreachable db
  else if existsb (fun t => team_id t =? teamId) (db_teams db)
       then (db, Data (db_states db))
       else (db, Rejected "Entity not found: Team").

Definition service : Remote :=
  {| RState := Db;
     issueCreate := on_create;
     issue := on_issue;
     issuesByIdentifier := on_search;
     issueUpdate := on_update;
     issues := on_issues;
     users := on_users;
     teams := on_teams;
     teamStates := on_states |}.

Definition todo : RawState := {| state_id := "s-todo"; state_name := "Todo" |}.
Definition in_progress : RawState := {| state_id := "s-prog"; state_name := "In Progress" |}.
Definition done : RawState := {| state_id := "s-done"; state_name := "Done" |}.

Definition sarah : RawUser :=
  {| raw_user_id := "u-1"; raw_user_name := "Sarah Chen";
     raw_user_email := "sarah@example.com"; raw_user_active := true |}.

Definition eng : Team := {| team_id := "t-eng"; team_key := "ENG"; team_name := "Engineering" |}.
Definition prd : Team := {| team_id := "t-prd"; team_key := "PRD"; team_name := "Product" |}.

Definition eng1 : RawIssue :=
  {| issue_id := "issue-1"; issue_identifier := "ENG-1";
     issue_title := "Fix login bug";
     issue_description := Some "Safari only";
     issue_url := "https://linear.app/demo/issue/ENG-1";
     issue_priority := 2; issue_priorityLabel := "High";
     issue_state := todo; issue_assignee := None |}.

Definition eng2 : RawIssue :=
  {| issue_id := "issue-2"; issue_identifier := "ENG-2";
     issue_title := "Refactor auth";
     issue_description := None;
     issue_url := "https://linear.app/demo/issue/ENG-2";
     issue_priority := 0; issue_priorityLabel := "No priority";
     issue_state := in_progress; issue_assignee := Some sarah |}.

Definition prd1 : RawIssue :=
  {| issue_id := "issue-3"; issue_identifier := "PRD-1";
     issue_title := "Pricing page";
     issue_description := None;
     issue_url := "https://linear.app/demo/issue/PRD-1";
     issue_priority := 3; issue_priorityLabel := "Medium";
     issue_state := todo; issue_assignee := None |}.

Definition db0 : Db :=
  {| reachable := true;
     readable_ids := true;
     db_teams := [eng; prd];
     db_states := [todo; in_progress; done];
     db_users := [sarah];
     db_issues := [eng1; eng2; prd1] |}.

(** The same workspace on a deployment whose [issue(id:)] only takes
    internal ids. *)
Definition db_opaque : Db :=
  {| reachable := true;
     readable_ids := false;
     db_teams := [eng; prd];
     db_states := [todo; in_progress; done];
     db_users := [sarah];
     db_issues := [eng1; eng2; prd1] |}.

(** The same workspace behind a broken transport. *)
Definition db_down : Db :=
  {| reachable := false;
     readable_ids := true;
     db_teams := [eng; prd];
     db_states := [todo; in_progress; done];
     db_users := [sarah];
     db_issues := [eng1; eng2; prd1] |}.



Definition start (db : Db) : World service := Build_World service db [].


Definition urgent : UpdateParams :=
  {| up_identifier := "ENG-1"; up_title := None; up_description := None;
     up_status := None; up_priority := Some 1%Z |}.

Definition blank_fields : UpdateParams :=
  {| up_identifier := "ENG-1"; up_title := Some EmptyString;
     up_description := Some EmptyString;
     up_status := None; up_priority := Some 0%Z |}.


Definition create_in_eng : CreateParams :=
  {| cp_title := "Rotate keys"; cp_projectKey := "eng";
     cp_description := None; cp_assigneeId := None |}.

Definition list_xyz : ListParams :=
  {| lp_projectKey := "XYZ"; lp_status := None; lp_limit := None |}.

Definition list_eng_one : ListParams :=
  {| lp_projectKey := "ENG"; lp_status := None; lp_limit := Some 1%Z |}.


Definition host_with_logger : PluginAPI service :=
  {| config := {| apiKey := Some EmptyString |}; has_logger := true;
     registered := []; logged := [] |}.

Definition host_with_key : PluginAPI service :=
  {| config := {| apiKey := Some "lin_api_0123" |}; has_logger := true;
     registered := []; logged := [] |}.

Definition host_without_logger : PluginAPI service :=
  {| config := {| apiKey := None |}; has_logger := false;
     registered := []; logged := [] |}.







Definition set_done : UpdateParams :=
  {| up_identifier := "ENG-1"; up_title := Some "Fix login"; up_description := None;
     up_status := Some "done"; up_priority := Some 1%Z |}.

Definition touch : UpdateParams :=
  {| up_identifier := "ENG-1"; up_title := None; up_description := None;
     up_status := None; up_priority := None |}.

Definition too_urgent : UpdateParams :=
  {| up_identifier := "ENG-1"; up_title := None; up_description := None;
     up_status := None; up_priority := Some 5%Z |}.

Definition assign_sarah : AssignParams :=
  {| ap_identifier := "ENG-2"; ap_userId := "u-1" |}.

Definition read_eng9 : ReadParams := {| rp_identifier := "ENG-9" |}.

End Demo.

(** * Properties *)

(** ** What a computation returns and which requests it sends *)
Section Observations.

Variable R : Remote.

Definition outcome {A} (m : M R A) (w : World R) : Outcome A := fst (m w).

(** The requests [m] adds to the trace when run from [w]. *)
Definition sent {A} (m : M R A) (w : World R) : list Call :=
  skipn (length (trace w)) (trace (snd (m w))).

(** The world after one request, answered out of state [s] into [s']. *)
Definition after (w : World R) (s' : RState R) (cs : list Call) : World R :=
  {| remote := s'; trace := (trace w ++ cs)%list |}.

(** The team a ticket belongs to, read off its identifier as the update
    handler does: the text before the first dash. *)
Definition team_of_ticket (t : LinearTicket) : string :=
  Js.split_head "-" (identifier t).

(** The remote returns only issues of the team whose key the filter names. *)
Definition honours_filter : Prop :=
  forall s f l,
    match snd (issues R s f l) with
    | Data nodes =>
        Forall (fun i => Js.split_head "-" (issue_identifier i) = filter_teamKey f) nodes
    | Rejected _ => True
    end.

Definition is_update (c : Call) : bool :=
  match c with
  | UpdateIssue _ _ => true
  | _ => false
  end.

(** The update provides a value for the priority and for nothing else. *)
Definition priority_only (p : Z) : TicketUpdateInput :=
  {| upd_title := None; upd_description := None; upd_stateId := None;
     upd_priority := Some p; upd_assigneeId := None |}.

(** [u] provides a value for the assignee reference and for nothing else. *)
Definition sets_only_assignee (u : TicketUpdateInput) (userId : string) : Prop :=
  upd_title u = None /\ upd_description u = None /\ upd_stateId u = None
  /\ upd_priority u = None /\ upd_assigneeId u = Some userId.

(** A text enumerates the keys of [ts] when each of them occurs in it. *)
Definition enumerates_keys (t : string) (ts : list Team) : Prop :=
  forall x, In x ts -> Js.includes t (team_key x) = true.

(** Computations only ever append to the trace. *)
Definition appends {A} (m : M R A) : Prop :=
  forall w, exists l, trace (snd (m w)) = (trace w ++ l)%list.

(** The primary path succeeds exactly on a non-null payload. *)
Definition primary_hit (r : Reply (option RawIssue)) : option RawIssue :=
  match r with
  | Data (Some i) => Some i
  | _ => None
  end.

(** The filter a list-tickets call asks for. *)
Definition list_filter (params : ListParams) : IssueFilter :=
  {| filter_teamKey := lp_projectKey params;
     filter_stateName := if Js.truthy_opt (lp_status params) then lp_status params else None |}.

End Observations.

Arguments outcome {R A} m w.
Arguments sent {R A} m w.
Arguments after {R} w s' cs.

Definition tool_names : list string :=
  [ "linear_create_ticket"; "linear_read_ticket"; "linear_update_ticket";
    "linear_assign_ticket"; "linear_list_tickets"; "linear_get_users" ].

Definition missing_key_warning : LogLevel * string :=
  (LogWarn, "Linear plugin: apiKey not configured").

(** ** Further observations used by the properties of the remaining code *)






(** Does the character occur in the string. *)
Fixpoint mem_char (c : ascii) (s : string) : bool :=
  match s with
  | EmptyString => false
  | String d r => Ascii.eqb d c || mem_char c r
  end.

(** The object a [linear_update_ticket] call carries. *)
Definition update_params_object (p : UpdateParams) : JsObject :=
  ([("identifier", JString (up_identifier p))]
   ++ opt_property "title" (option_map JString (up_title p))
   ++ opt_property "description" (option_map JString (up_description p))
   ++ opt_property "status" (option_map JString (up_status p))
   ++ opt_property "priority" (option_map JNumber (up_priority p)))%list.

(** The same create-ticket call with another spelling of the team key. *)
Definition with_projectKey (p : CreateParams) (key : string) : CreateParams :=
  {| cp_title := cp_title p;
     cp_projectKey := key;
     cp_description := cp_description p;
     cp_assigneeId := cp_assigneeId p |}.

(** A list of requests with no mutation in it. *)
Definition queries_only (cs : list Call) : bool :=
  forallb (fun c => negb (is_mutation c)) cs.

(** The name the assign-ticket response shows:
    [ticket.assignee?.name || "user"]. *)
Definition shown_assignee (t : LinearTicket) : string :=
  match assignee t with
  | Some u => if Js.truthy (user_name u) then user_name u else "user"
  | None => "user"
  end.

(** The same ticket with another description. *)
Definition with_description (t : LinearTicket) (d : option string) : LinearTicket :=
  {| id := id t; identifier := identifier t; title := title t;
     description := d; status := status t; priority := priority t;
     priorityLabel := priorityLabel t; assignee := assignee t; url := url t |}.

(** Does the operation ever send a mutation, and how many queries and
    requests it sends at most. *)
Definition mutating (i : Invocation) : bool :=
  match i with
  | CreateTicket _ | UpdateTicket _ | AssignTicket _ => true
  | _ => false
  end.

Definition query_bound (i : Invocation) : nat :=
  match i with
  | CreateTicket _ => 1
  | ReadTicket _ => 2
  | UpdateTicket _ => 6
  | AssignTicket _ => 2
  | ListTickets _ => 1
  | ListUsers => 1
  end.

Definition request_bound (i : Invocation) : nat :=
  query_bound i + (if mutating i then 1 else 0).

(** ** Strings *)
Section Strings.

Lemma startsWith_refl_app (p s : string) : Js.startsWith (p ++ s) p = true.
Proof.
  induction p as [|c p IH]; simpl.
  - reflexivity.
  - now rewrite Ascii.eqb_refl, IH.
Qed.

Lemma includes_app_l (a b p : string) :
  Js.includes a p = true -> Js.includes (a ++ b) p = true.
Proof.
  assert (SW : forall p a, Js.startsWith a p = true -> Js.startsWith (a ++ b) p = true).
  { clear. induction p as [|c p IH]; intros a H; [reflexivity|].
    destruct a as [|d a]; simpl in *; [discriminate|].
    apply andb_true_iff in H as [H1 H2].
    now rewrite H1, (IH _ H2). }
  induction a as [|c a IH]; intros H.
  - simpl in H. rewrite orb_false_r in H.
    destruct p; [|discriminate]. destruct b; reflexivity.
  - simpl in H. apply orb_true_iff in H as [H|H].
    + change ((String c a ++ b)) with (String c (a ++ b)).
      simpl. apply orb_true_iff. left.
      exact (SW p (String c a) H).
    + simpl. apply orb_true_iff. right. now apply IH.
Qed.

Lemma includes_app_r (a b p : string) :
  Js.includes b p = true -> Js.includes (a ++ b) p = true.
Proof.
  intros H. induction a as [|c a IH]; simpl.
  - exact H.
  - rewrite IH. apply orb_true_r.
Qed.

Lemma includes_self (p : string) : Js.includes p p = true.
Proof.
  destruct p as [|c p]; [reflexivity|].
  simpl. rewrite Ascii.eqb_refl. simpl.
  replace (Js.startsWith p p) with true; [reflexivity|].
  symmetry. rewrite <- (startsWith_refl_app p EmptyString) at 1.
  f_equal. clear. induction p; simpl; congruence.
Qed.

Lemma includes_join (sep x : string) (l : list string) :
  In x l -> Js.includes (Js.join sep l) x = true.
Proof.
  induction l as [|y l IH]; intros H; [destruct H|].
  destruct H as [->|H].
  - destruct l as [|z l]; simpl.
    + apply includes_self.
    + apply includes_app_l, includes_self.
  - destruct l as [|z l]; [destruct H|].
    change (Js.join sep (y :: z :: l)) with (y ++ sep ++ Js.join sep (z :: l)).
    now apply includes_app_r, includes_app_r, IH.
Qed.

End Strings.

(** ** The monad: computations only ever append to the trace *)
Section Traces.

Variable R : Remote.

Lemma sent_appended {A} (m : M R A) (w : World R) (l : list Call) :
  trace (snd (m w)) = (trace w ++ l)%list -> sent m w = l.
Proof.
  intros H. unfold sent. rewrite H.
  rewrite skipn_app, skipn_all, Nat.sub_diag. reflexivity.
Qed.

Lemma trace_sent {A} (m : M R A) (w : World R) :
  appends R m -> trace (snd (m w)) = (trace w ++ sent m w)%list.
Proof.
  intros H. destruct (H w) as [l Hl].
  now rewrite (sent_appended m w l Hl).
Qed.

Lemma request_run {A} (c : Call) (f : RState R -> RState R * Reply A) (w : World R) :
  request c f w =
  (match snd (f (remote w)) with
   | Data a => Returned a
   | Rejected m => Threw (RequestError m)
   end,
   after w (fst (f (remote w))) [c]).
Proof.
  unfold request, after. destruct (f (remote w)) as [s [a|m]]; reflexivity.
Qed.

Lemma appends_ret {A} (a : A) : appends R (@ret R A a).
Proof. intros w. exists []. simpl. now rewrite app_nil_r. Qed.

Lemma appends_throw {A} (e : Thrown) : appends R (@throw R A e).
Proof. intros w. exists []. simpl. now rewrite app_nil_r. Qed.

Lemma appends_request {A} (c : Call) (f : RState R -> RState R * Reply A) :
  appends R (request c f).
Proof. intros w. exists [c]. now rewrite request_run. Qed.

Lemma appends_bind {A B} (m : M R A) (k : A -> M R B) :
  appends R m -> (forall a, appends R (k a)) -> appends R (bind m k).
Proof.
  intros Hm Hk w. unfold bind.
  destruct (Hm w) as [l Hl]. destruct (m w) as [[a|e] w1]; simpl in Hl.
  - destruct (Hk a w1) as [l' Hl']. exists (l ++ l')%list.
    now rewrite Hl', Hl, app_assoc.
  - now exists l.
Qed.

Lemma appends_try_catch {A} (m : M R A) (h : Thrown -> M R A) :
  appends R m -> (forall e, appends R (h e)) -> appends R (try_catch m h).
Proof.
  intros Hm Hh w. unfold try_catch.
  destruct (Hm w) as [l Hl]. destruct (m w) as [[a|e] w1]; simpl in Hl.
  - now exists l.
  - destruct (Hh e w1) as [l' Hl']. exists (l ++ l')%list.
    now rewrite Hl', Hl, app_assoc.
Qed.

Lemma sent_ret {A} (a : A) (w : World R) : sent (ret a) w = [].
Proof. apply sent_appended. simpl. now rewrite app_nil_r. Qed.

Lemma sent_throw {A} (e : Thrown) (w : World R) : sent (@throw R A e) w = [].
Proof. apply sent_appended. simpl. now rewrite app_nil_r. Qed.

Lemma sent_request {A} (c : Call) (f : RState R -> RState R * Reply A) (w : World R) :
  sent (request c f) w = [c].
Proof. apply sent_appended. now rewrite request_run. Qed.

Lemma sent_bind {A B} (m : M R A) (k : A -> M R B) (w : World R) :
  appends R m -> (forall a, appends R (k a)) ->
  sent (bind m k) w =
  match m w with
  | (Returned a, w1) => (sent m w ++ sent (k a) w1)%list
  | (Threw _, _) => sent m w
  end.
Proof.
  intros Hm Hk.
  pose proof (trace_sent m w Hm) as Tm.
  destruct (m w) as [[a|e] w1] eqn:E; apply sent_appended; unfold bind; rewrite E.
  - rewrite (trace_sent (k a) w1 (Hk a)). simpl in Tm. now rewrite Tm, app_assoc.
  - exact Tm.
Qed.

Lemma sent_try_catch {A} (m : M R A) (h : Thrown -> M R A) (w : World R) :
  appends R m -> (forall e, appends R (h e)) ->
  sent (try_catch m h) w =
  match m w with
  | (Returned _, _) => sent m w
  | (Threw e, w1) => (sent m w ++ sent (h e) w1)%list
  end.
Proof.
  intros Hm Hh.
  pose proof (trace_sent m w Hm) as Tm.
  destruct (m w) as [[a|e] w1] eqn:E; apply sent_appended; unfold try_catch; rewrite E.
  - exact Tm.
  - rewrite (trace_sent (h e) w1 (Hh e)). simpl in Tm. now rewrite Tm, app_assoc.
Qed.

(** A handler's [catch] clause turns every exception of the body into a
    returned response and sends nothing. *)
Lemma caught (phrase : string) (m : M R ToolResponse) (w : World R) :
  try_catch m (failed R phrase) w =
  (match fst (m w) with
   | Returned r => Returned r
   | Threw e => Returned (textResponse (phrase ++ ": " ++ message_of e))
   end,
   snd (m w)).
Proof. unfold try_catch, failed, ret. destruct (m w) as [[r|e] w1]; reflexivity. Qed.

Lemma appends_failed (phrase : string) (e : Thrown) : appends R (failed R phrase e).
Proof. apply appends_ret. Qed.

Lemma sent_caught (phrase : string) (m : M R ToolResponse) (w : World R) :
  sent (try_catch m (failed R phrase)) w = sent m w.
Proof. unfold sent. now rewrite caught. Qed.

End Traces.

Create HintDb appends.
#[export] Hint Resolve appends_ret appends_throw appends_request appends_failed : appends.
#[export] Hint Extern 2 (appends _ (bind _ _)) => apply appends_bind; [|intro] : appends.
#[export] Hint Extern 2 (appends _ (try_catch _ _)) => apply appends_try_catch; [|intro] : appends.

(** ** The client *)
Section ClientFacts.

Variable R : Remote.

Lemma after_after (w : World R) (s s' : RState R) (a b : list Call) :
  after (after w s a) s' b = after w s' (a ++ b)%list.
Proof. unfold after. simpl. now rewrite app_assoc. Qed.

Lemma searchTicket_run (ident : string) (w : World R) :
  searchTicket R ident w =
  (match snd (issuesByIdentifier R (remote w) ident 1) with
   | Data [] => Threw (not_found ident)
   | Data (node :: _) => Returned (mapIssue node)
   | Rejected m => Threw (RequestError m)
   end,
   after w (fst (issuesByIdentifier R (remote w) ident 1)) [SearchIssue ident 1]).
Proof.
  unfold searchTicket, bind. rewrite request_run.
  destruct (snd (issuesByIdentifier R (remote w) ident 1)) as [[|n ns]|m]; reflexivity.
Qed.

Lemma primaryLookup_run (ident : string) (w : World R) :
  primaryLookup R ident w =
  (match snd (issue R (remote w) ident) with
   | Data (Some i) => Returned (mapIssue i)
   | Data None => Threw (TypeError "Cannot read properties of null (reading 'id')")
   | Rejected m => Threw (RequestError m)
   end,
   after w (fst (issue R (remote w) ident)) [GetIssue ident]).
Proof.
  unfold primaryLookup, bind. rewrite request_run.
  destruct (snd (issue R (remote w) ident)) as [[i|]|m]; reflexivity.
Qed.

Lemma getTicket_run (ident : string) (w : World R) :
  getTicket R ident w =
  let p := issue R (remote w) ident in
  match primary_hit (snd p) with
  | Some i => (Returned (mapIssue i), after w (fst p) [GetIssue ident])
  | None =>
      let q := issuesByIdentifier R (fst p) ident 1 in
      (match snd q with
       | Data [] => Threw (not_found ident)
       | Data (node :: _) => Returned (mapIssue node)
       | Rejected m => Threw (RequestError m)
       end,
       after w (fst q) [GetIssue ident; SearchIssue ident 1])
  end.
Proof.
  unfold getTicket, try_catch. rewrite primaryLookup_run. cbv zeta.
  destruct (snd (issue R (remote w) ident)) as [[i|]|m]; simpl primary_hit; cbv iota;
    try reflexivity; rewrite searchTicket_run, after_after; reflexivity.
Qed.

Lemma appends_getTicket (ident : string) : appends R (getTicket R ident).
Proof.
  intros w. rewrite getTicket_run. cbv zeta.
  destruct (primary_hit _); eexists; reflexivity.
Qed.

Lemma appends_mapIssue_nullable (i : option RawIssue) : appends R (mapIssue_nullable R i).
Proof. destruct i; simpl; auto with appends. Qed.

Lemma appends_updateTicket (ident : string) (u : TicketUpdateInput) :
  appends R (updateTicket R ident u).
Proof.
  unfold updateTicket. apply appends_bind; [apply appends_getTicket|intro t].
  apply appends_bind; [apply appends_request|intros [ok i]].
  simpl. destruct ok; simpl; auto using appends_mapIssue_nullable with appends.
Qed.

(** Requests of [getTicket]: the primary query, then at most the search. *)
Lemma sent_getTicket (ident : string) (w : World R) :
  sent (getTicket R ident) w = [GetIssue ident]
  \/ sent (getTicket R ident) w = [GetIssue ident; SearchIssue ident 1].
Proof.
  pose proof (getTicket_run ident w) as H. cbv zeta in H.
  destruct (primary_hit _); [left|right]; apply sent_appended; now rewrite H.
Qed.

Lemma getTicket_no_mutation (ident : string) (w : World R) :
  forallb (fun c => negb (is_mutation c)) (sent (getTicket R ident) w) = true.
Proof. destruct (sent_getTicket ident w) as [-> | ->]; reflexivity. Qed.

(** What [updateTicket] does once the ticket is resolved. *)
Lemma updateTicket_run (ident : string) (u : TicketUpdateInput) (w : World R) :
  updateTicket R ident u w =
  match getTicket R ident w with
  | (Returned t, w1) =>
      let a := issueUpdate R (remote w1) (id t) u in
      (match snd a with
       | Data (true, Some i) => Returned (mapIssue i)
       | Data (true, None) => Threw (TypeError "Cannot read properties of null (reading 'id')")
       | Data (false, _) => Threw (NewError "Failed to update ticket")
       | Rejected m => Threw (RequestError m)
       end,
       after w1 (fst a) [UpdateIssue (id t) u])
  | (Threw e, w1) => (Threw e, w1)
  end.
Proof.
  unfold updateTicket, bind at 1.
  destruct (getTicket R ident w) as [[t|e] w1]; [|reflexivity].
  unfold bind. rewrite request_run. cbv zeta.
  destruct (snd (issueUpdate R (remote w1) (id t) u)) as [[[|] [i|]]|m]; reflexivity.
Qed.

Lemma sent_updateTicket (ident : string) (u : TicketUpdateInput) (w : World R) :
  sent (updateTicket R ident u) w =
  match getTicket R ident w with
  | (Returned t, _) => (sent (getTicket R ident) w ++ [UpdateIssue (id t) u])%list
  | (Threw _, _) => sent (getTicket R ident) w
  end.
Proof.
  pose proof (trace_sent R (getTicket R ident) w (appends_getTicket ident)) as T.
  apply sent_appended. rewrite updateTicket_run.
  destruct (getTicket R ident w) as [[t|e] w1]; simpl in *.
  - now rewrite T, app_assoc.
  - exact T.
Qed.

End ClientFacts.

#[export] Hint Resolve appends_getTicket appends_updateTicket appends_mapIssue_nullable : appends.

(** ** The update handler *)
Section UpdateFacts.

Variable R : Remote.

Lemma appends_getTeams : appends R (getTeams R).
Proof. apply appends_request. Qed.

Lemma appends_getWorkflowStates (teamId : string) : appends R (getWorkflowStates R teamId).
Proof. apply appends_request. Qed.

Lemma appends_resolve_status (params : UpdateParams) (u0 : TicketUpdateInput) :
  appends R (resolve_status R params u0).
Proof.
  unfold resolve_status. destruct (Js.truthy_opt _); [|apply appends_ret].
  apply appends_bind; [apply appends_getTicket|intros _].
  apply appends_bind; [apply appends_getTeams|intros ts].
  destruct (Js.find _ ts); [|apply appends_ret].
  apply appends_bind; [apply appends_getWorkflowStates|intros states].
  destruct (Js.find _ states); apply appends_ret.
Qed.

(** The status block as a whole: which requests it sends and what it hands
    on, by cases on the replies it gets. *)
Lemma resolve_status_run (params : UpdateParams) (u0 : TicketUpdateInput) (w : World R) :
  resolve_status R params u0 w =
  if Js.truthy_opt (up_status params) then
    match getTicket R (up_identifier params) w with
    | (Threw e, w1) => (Threw e, w1)
    | (Returned _, w1) =>
        let t := teams R (remote w1) in
        let w2 := after w1 (fst t) [GetTeams] in
        match snd t with
        | Rejected m => (Threw (RequestError m), w2)
        | Data ts =>
            match Js.find (key_matches (Js.split_head "-" (up_identifier params))) ts with
            | None => (Returned (inr u0), w2)
            | Some team =>
                let s := teamStates R (fst t) (team_id team) in
                let w3 := after w2 (fst s) [GetStates (team_id team)] in
                let name := match up_status params with Some n => n | None => EmptyString end in
                match snd s with
                | Rejected m => (Threw (RequestError m), w3)
                | Data states =>
                    match Js.find (name_matches name) states with
                    | Some state => (Returned (inr (with_stateId u0 (state_id state))), w3)
                    | None => (Returned (inl (textResponse (status_not_found name states))), w3)
                    end
                end
            end
        end
    end
  else (Returned (inr u0), w).
Proof.
  unfold resolve_status. destruct (Js.truthy_opt _); [|reflexivity].
  unfold bind at 1. destruct (getTicket R (up_identifier params) w) as [[t0|e] w1]; [|reflexivity].
  unfold bind at 1, getTeams. rewrite request_run. cbv zeta.
  destruct (snd (teams R (remote w1))) as [ts|m]; [|reflexivity].
  destruct (Js.find _ ts) as [team|]; [|reflexivity].
  unfold bind, getWorkflowStates. rewrite request_run. simpl remote.
  destruct (snd (teamStates R _ _)) as [states|m]; [|reflexivity].
  destruct (Js.find _ states); reflexivity.
Qed.

Lemma resolve_status_queries (params : UpdateParams) (u0 : TicketUpdateInput) (w : World R) :
  forallb (fun c => negb (is_mutation c)) (sent (resolve_status R params u0) w) = true.
Proof.
  pose proof (resolve_status_run params u0 w) as H.
  pose proof (trace_sent R _ w (appends_getTicket R (up_identifier params))) as T.
  pose proof (getTicket_no_mutation R (up_identifier params) w) as Q.
  destruct (Js.truthy_opt _).
  2:{ rewrite (sent_appended R _ w []); [reflexivity|]. rewrite H. simpl. now rewrite app_nil_r. }
  destruct (getTicket R (up_identifier params) w) as [[t0|e] w1]; simpl in T.
  2:{ rewrite (sent_appended R _ w _ (eq_trans (f_equal (fun x => trace (snd x)) H) T)). exact Q. }
  cbv zeta in H.
  assert (G : forall l, forallb (fun c => negb (is_mutation c)) l = true ->
           forall o w', resolve_status R params u0 w = (o, w') ->
           trace w' = (trace w1 ++ l)%list ->
           forallb (fun c => negb (is_mutation c)) (sent (resolve_status R params u0) w) = true).
  { intros l Hl o w' E Tw.
    rewrite (sent_appended R _ w (sent (getTicket R (up_identifier params)) w ++ l)%list).
    - rewrite forallb_app, Q, Hl. reflexivity.
    - rewrite E. simpl. now rewrite Tw, T, app_assoc. }
  destruct (snd (teams R (remote w1))) as [ts|m].
  2:{ eapply (G [GetTeams]); [reflexivity|exact H|reflexivity]. }
  destruct (Js.find _ ts) as [team|].
  2:{ eapply (G [GetTeams]); [reflexivity|exact H|reflexivity]. }
  destruct (snd (teamStates R _ _)) as [states|m].
  2:{ eapply (G [GetTeams; GetStates (team_id team)]); [reflexivity|exact H|].
      simpl. now rewrite <- app_assoc. }
  destruct (Js.find _ states);
    (eapply (G [GetTeams; GetStates (team_id team)]); [reflexivity|exact H|];
     simpl; now rewrite <- app_assoc).
Qed.

(** The object handed on differs from [u0] at most in its [stateId]. *)
Lemma resolve_status_keeps_fields (params : UpdateParams) (u0 u : TicketUpdateInput)
    (w : World R) :
  outcome (resolve_status R params u0) w = Returned (inr u) ->
  upd_title u = upd_title u0 /\ upd_description u = upd_description u0
  /\ upd_priority u = upd_priority u0 /\ upd_assigneeId u = upd_assigneeId u0.
Proof.
  unfold outcome. rewrite resolve_status_run.
  destruct (Js.truthy_opt _); [|simpl; intros [= <-]; auto].
  destruct (getTicket R _ w) as [[t0|e] w1]; [|discriminate].
  cbv zeta. destruct (snd (teams R _)) as [ts|m]; [|discriminate].
  destruct (Js.find _ ts); [|simpl; intros [= <-]; auto].
  destruct (snd (teamStates R _ _)) as [states|m]; [|discriminate].
  destruct (Js.find _ states); [|discriminate].
  simpl. intros [= <-]. auto.
Qed.

Lemma sent_update_body (params : UpdateParams) (w : World R) :
  sent (linear_update_ticket R params) w =
  match resolve_status R params (field_updates params) w with
  | (Returned (inr u), w1) =>
      (sent (resolve_status R params (field_updates params)) w
       ++ sent (updateTicket R (up_identifier params) u) w1)%list
  | _ => sent (resolve_status R params (field_updates params)) w
  end.
Proof.
  unfold linear_update_ticket. rewrite sent_caught. unfold update_ticket_body.
  rewrite sent_bind.
  - destruct (resolve_status R params _ w) as [[[r|u]|e] w1]; try reflexivity.
    + now rewrite sent_ret, app_nil_r.
    + f_equal. rewrite sent_bind; auto with appends.
      destruct (updateTicket R _ u w1) as [[t|e] w2]; [|reflexivity].
      now rewrite sent_ret, app_nil_r.
  - apply appends_resolve_status.
  - intros [r|u]; auto with appends.
Qed.

(** Every update mutation the handler sends carries the title,
    description and priority that [field_updates] computed. *)
Lemma update_mutation_fields (params : UpdateParams) (w : World R) (iid : string)
    (u : TicketUpdateInput) :
  In (UpdateIssue iid u) (sent (linear_update_ticket R params) w) ->
  upd_title u = upd_title (field_updates params)
  /\ upd_description u = upd_description (field_updates params)
  /\ upd_priority u = upd_priority (field_updates params)
  /\ upd_assigneeId u = None.
Proof.
  rewrite sent_update_body.
  pose proof (resolve_status_queries params (field_updates params) w) as Q.
  pose proof (fun u => resolve_status_keeps_fields params (field_updates params) u w) as K.
  assert (NQ : ~ In (UpdateIssue iid u) (sent (resolve_status R params (field_updates params)) w)).
  { intros HIn. rewrite forallb_forall in Q. specialize (Q _ HIn). discriminate. }
  unfold outcome in K.
  destruct (resolve_status R params _ w) as [[[r|u1]|e] w1]; try (intros H; contradiction).
  intros H. apply in_app_or in H as [H|H]; [contradiction|].
  rewrite sent_updateTicket in H.
  pose proof (getTicket_no_mutation R (up_identifier params) w1) as Q1.
  rewrite forallb_forall in Q1.
  assert (E : u = u1).
  { destruct (getTicket R _ w1) as [[t|e] w2].
    - apply in_app_or in H as [H|H]; [specialize (Q1 _ H); discriminate|].
      destruct H as [H|[]]. now inversion H.
    - specialize (Q1 _ H). discriminate. }
  subst u1. destruct (K u eq_refl) as (-> & -> & -> & ->). auto.
Qed.

End UpdateFacts.

(** ** Ticket lookup, assignment and partial updates *)
Section LookupAndUpdate.

Variable R : Remote.

(** C3 (amended): [getTicket] first sends the single-entity query.  When
    that answers with an issue, the issue is returned normalized and
    nothing else is sent.  On any failure of that path (a rejected request
    or a null payload) it sends the search-by-identifier query with
    [first: 1]; it throws the not-found error exactly when that search
    answers with no node, returns the first node normalized when there is
    one, and throws the search request's own error when the search request
    is rejected. *)
Theorem getTicket_primary_then_search (ident : string) (w : World R) :
  let p := issue R (remote w) ident in
  let q := issuesByIdentifier R (fst p) ident 1 in
  let res := outcome (getTicket R ident) w in
  (res = Threw (not_found ident) <-> primary_hit (snd p) = None /\ snd q = Data [])
  /\ match primary_hit (snd p) with
     | Some i =>
         res = Returned (mapIssue i)
         /\ sent (getTicket R ident) w = [GetIssue ident]
     | None =>
         sent (getTicket R ident) w = [GetIssue ident; SearchIssue ident 1]
         /\ match snd q with
            | Data [] => res = Threw (not_found ident)
            | Data (node :: _) => res = Returned (mapIssue node)
            | Rejected m => res = Threw (RequestError m)
            end
     end.
Proof.
  intros p q res. subst res. unfold outcome.
  pose proof (getTicket_run R ident w) as H. cbv zeta in H. fold p in H. fold q in H.
  destruct (primary_hit (snd p)) as [i|] eqn:Hit.
  - rewrite H. simpl. split.
    + split; [discriminate|]. intros [[=] _].
    + split; [reflexivity|]. apply sent_appended. now rewrite H.
  - split.
    + rewrite H. simpl. destruct (snd q) as [[|n ns]|m]; split; try discriminate;
        try tauto; intros [_ [=]].
    + split; [apply sent_appended; now rewrite H|].
      rewrite H. simpl. destruct (snd q) as [[|n ns]|m]; reflexivity.
Qed.

(** C8: [assignTicket(identifier, userId)] is [updateTicket(identifier, u)]
    for the partial update [u] that sets the assignee reference to
    [userId] and provides nothing else: same outcome, same requests, same
    final state of the remote. *)
Theorem assignTicket_is_updateTicket (ident userId : string) (u : TicketUpdateInput)
    (w : World R) :
  sets_only_assignee u userId ->
  assignTicket R ident userId w = updateTicket R ident u w.
Proof.
  intros (Ht & Hd & Hs & Hp & Ha). destruct u as [t d s p a]. simpl in *. subst.
  reflexivity.
Qed.

(** C5: when an update-ticket call supplies the priority and no title,
    description or status, the update mutation it sends (for the ticket
    [getTicket] resolved) provides a value for the priority only; when the
    ticket cannot be resolved no mutation is sent at all. *)
Theorem update_priority_only (params : UpdateParams) (p : Z) (w : World R) :
  up_title params = None ->
  up_description params = None ->
  up_status params = None ->
  up_priority params = Some p ->
  (forall iid u, In (UpdateIssue iid u) (sent (linear_update_ticket R params) w) ->
                 u = priority_only p)
  /\ match getTicket R (up_identifier params) w with
     | (Returned t, _) =>
         sent (linear_update_ticket R params) w =
         (sent (getTicket R (up_identifier params)) w
          ++ [UpdateIssue (id t) (priority_only p)])%list
     | (Threw e, _) =>
         sent (linear_update_ticket R params) w = sent (getTicket R (up_identifier params)) w
         /\ outcome (linear_update_ticket R params) w =
            Returned (textResponse ("Failed to update ticket: " ++ message_of e))
     end.
Proof.
  intros Ht Hd Hs Hp.
  assert (F : field_updates params = priority_only p).
  { unfold field_updates, priority_only. now rewrite Ht, Hd, Hp. }
  assert (S : sent (linear_update_ticket R params) w =
              sent (updateTicket R (up_identifier params) (priority_only p)) w).
  { rewrite sent_update_body, resolve_status_run, Hs, F. simpl.
    rewrite (sent_appended R (resolve_status R params (priority_only p)) w []); [reflexivity|].
    rewrite resolve_status_run, Hs. simpl. now rewrite app_nil_r. }
  split.
  - intros iid u HIn. rewrite S, sent_updateTicket in HIn.
    pose proof (getTicket_no_mutation R (up_identifier params) w) as Q.
    rewrite forallb_forall in Q.
    destruct (getTicket R _ w) as [[t|e] w1].
    + apply in_app_or in HIn as [HIn|[HIn|[]]]; [specialize (Q _ HIn); discriminate|].
      now inversion HIn.
    + specialize (Q _ HIn). discriminate.
  - rewrite S, sent_updateTicket.
    destruct (getTicket R _ w) as [[t|e] w1] eqn:G; [reflexivity|].
    split; [reflexivity|].
    unfold outcome, linear_update_ticket. rewrite caught.
    unfold update_ticket_body, bind at 1. rewrite resolve_status_run, Hs. simpl.
    unfold bind. rewrite updateTicket_run, G. reflexivity.
Qed.

(** C10: in update-ticket an empty title and an empty description are left
    out of every update mutation sent, priority 0 is carried by every
    update mutation sent, and when no status is given and the ticket
    resolves such a mutation is sent. *)
Theorem update_truthiness_gates (params : UpdateParams) (w : World R) :
  (up_title params = Some EmptyString ->
   forall iid u, In (UpdateIssue iid u) (sent (linear_update_ticket R params) w) ->
                 upd_title u = None)
  /\ (up_description params = Some EmptyString ->
      forall iid u, In (UpdateIssue iid u) (sent (linear_update_ticket R params) w) ->
                    upd_description u = None)
  /\ (up_priority params = Some 0%Z ->
      forall iid u, In (UpdateIssue iid u) (sent (linear_update_ticket R params) w) ->
                    upd_priority u = Some 0%Z)
  /\ (up_status params = None ->
      forall t w1, getTicket R (up_identifier params) w = (Returned t, w1) ->
      In (UpdateIssue (id t) (field_updates params)) (sent (linear_update_ticket R params) w)).
Proof.
  repeat split.
  - intros H iid u HIn. destruct (update_mutation_fields R params w iid u HIn) as (-> & _).
    unfold field_updates. now rewrite H.
  - intros H iid u HIn. destruct (update_mutation_fields R params w iid u HIn) as (_ & -> & _).
    unfold field_updates. simpl. now rewrite H.
  - intros H iid u HIn. destruct (update_mutation_fields R params w iid u HIn) as (_ & _ & -> & _).
    exact H.
  - intros Hs t w1 G. rewrite sent_update_body, resolve_status_run, Hs. simpl.
    rewrite sent_updateTicket, G. apply in_or_app. right. apply in_or_app. right. now left.
Qed.

End LookupAndUpdate.

(** ** Resolution of team keys and status names *)
Section Resolution.

Variable R : Remote.

Lemma name_matches_iff (name : string) (s : RawState) :
  name_matches name s = true <-> Js.toLowerCase (state_name s) = Js.toLowerCase name.
Proof. unfold name_matches. apply String.eqb_eq. Qed.













Lemma create_body_run (params : CreateParams) (w : World R) :
  create_ticket_body R params w =
  let t := teams R (remote w) in
  let w1 := after w (fst t) [GetTeams] in
  match snd t with
  | Rejected m => (Threw (RequestError m), w1)
  | Data ts =>
      match Js.find (key_matches (cp_projectKey params)) ts with
      | None => (Returned (textResponse (team_not_found (cp_projectKey params) ts)), w1)
      | Some team =>
          (ticket <- createTicket R
                       {| new_title := cp_title params;
                          new_teamId := team_id team;
                          new_description := cp_description params;
                          new_assigneeId := cp_assigneeId params |} ;;
           ret (textResponse ("Created ticket **" ++ identifier ticket ++ "**"
                              ++ Js.nl ++ Js.nl ++ "URL: " ++ url ticket))) w1
      end
  end.
Proof.
  unfold create_ticket_body, bind at 1, getTeams. rewrite request_run. cbv zeta.
  destruct (snd (teams R (remote w))) as [ts|m]; [|reflexivity].
  destruct (Js.find _ ts); reflexivity.
Qed.

Lemma createTicket_sent (input : CreateTicketInput) (w : World R) :
  trace (snd (createTicket R input w)) = (trace w ++ [CreateIssue input])%list.
Proof.
  unfold createTicket, bind. rewrite request_run.
  destruct (snd (issueCreate R (remote w) input)) as [[[|] [i|]]|m]; reflexivity.
Qed.




End Resolution.

(** ** Listing, error surfacing and registration *)
Section Handlers.

Variable R : Remote.

Lemma listTickets_run (key : string) (st : option string) (limit : option Z) (w : World R) :
  let l := match limit with Some l => l | None => 50%Z end in
  let f := {| filter_teamKey := key;
              filter_stateName := if Js.truthy_opt st then st else None |} in
  listTickets R key st limit w =
  (match snd (issues R (remote w) f l) with
   | Data nodes => Returned (map mapIssue nodes)
   | Rejected m => Threw (RequestError m)
   end,
   after w (fst (issues R (remote w) f l)) [ListIssues f l]).
Proof.
  intros l f. unfold listTickets, bind. fold l. fold f. rewrite request_run.
  destruct (snd (issues R (remote w) f l)); reflexivity.
Qed.

Lemma list_handler_run (params : ListParams) (w : World R) :
  let f := list_filter params in
  let l := limit_or_default (lp_limit params) in
  linear_list_tickets R params w =
  (match snd (issues R (remote w) f l) with
   | Data nodes =>
       Returned (textResponse (tickets_header params
                               ++ formatTicketList (map mapIssue nodes)))
   | Rejected m => Returned (textResponse ("Failed to list tickets: " ++ m))
   end,
   after w (fst (issues R (remote w) f l)) [ListIssues f l]).
Proof.
  intros f l. unfold linear_list_tickets. rewrite caught.
  unfold list_tickets_body, bind. rewrite listTickets_run. cbv zeta.
  fold (list_filter params). fold f. fold l.
  destruct (snd (issues R (remote w) f l)); reflexivity.
Qed.

(** C2 (amended): list-tickets sends one request and no other: the list
    query whose filter carries the supplied team key as it is (an exact
    match, with no team lookup and no case folding), so no mutation is
    sent.  The response renders exactly the tickets the remote answers
    with; when it answers with none, as for a key matching no team, the
    text is the header followed by the no-tickets line, and team keys are
    not looked up or listed.  On a remote that honours the filter, every
    ticket returned belongs to the team with the supplied key. *)
Theorem list_tickets_exact_key (params : ListParams) (w : World R) :
  let f := list_filter params in
  let l := limit_or_default (lp_limit params) in
  sent (linear_list_tickets R params) w = [ListIssues f l]
  /\ filter_teamKey f = lp_projectKey params
  /\ forallb (fun c => negb (is_mutation c)) (sent (linear_list_tickets R params) w) = true
  /\ match snd (issues R (remote w) f l) with
     | Data [] =>
         outcome (linear_list_tickets R params) w =
         Returned (textResponse (tickets_header params ++ "No tickets found."))
     | Data nodes =>
         outcome (linear_list_tickets R params) w =
         Returned (textResponse (tickets_header params
                                 ++ formatTicketList (map mapIssue nodes)))
     | Rejected m =>
         outcome (linear_list_tickets R params) w =
         Returned (textResponse ("Failed to list tickets: " ++ m))
     end
  /\ (honours_filter R ->
      match outcome (listTickets R (lp_projectKey params) (lp_status params) (Some l)) w with
      | Returned tickets =>
          Forall (fun t => team_of_ticket t = lp_projectKey params) tickets
      | Threw _ => True
      end).
Proof.
  intros f l.
  assert (S : sent (linear_list_tickets R params) w = [ListIssues f l]).
  { apply sent_appended. now rewrite list_handler_run. }
  rewrite S.
  split; [reflexivity|]. split; [reflexivity|]. split; [reflexivity|]. split.
  - unfold outcome. rewrite list_handler_run. fold f. fold l.
    destruct (snd (issues R (remote w) f l)) as [[|n ns]|m]; reflexivity.
  - intros HF. unfold outcome. rewrite listTickets_run. cbv zeta.
    fold (list_filter params). fold f.
    specialize (HF (remote w) f l).
    destruct (snd (issues R (remote w) f l)) as [nodes|m]; simpl; [|exact I].
    apply Forall_map. exact HF.
Qed.




(** C9 (amended): with no API key (missing or empty) [register] registers
    no operation and, when the host gives it a logger, logs the missing
    credential as one warning (with no logger nothing is reported); with
    an API key it registers the six operations, in order. *)
Theorem register_requires_api_key (api : PluginAPI R) :
  if Js.truthy_opt (apiKey (config api))
  then map (fun r => tool_name (reg_schema r)) (registered (register R api))
       = (map (fun r => tool_name (reg_schema r)) (registered api) ++ tool_names)%list
       /\ length (registered (register R api)) = (length (registered api) + 6)%nat
  else registered (register R api) = registered api
       /\ logged (register R api)
          = (logged api ++ (if has_logger api then [missing_key_warning] else []))%list.
Proof.
  unfold register. destruct (Js.truthy_opt (apiKey (config api))); simpl.
  - destruct api as [c [|] regs lg]; unfold log, registerLinearTools, registerTool; simpl;
      rewrite ?map_app, ?length_app, <- ?app_assoc; simpl;
      (split; [reflexivity|lia]).
  - unfold log. destruct api as [c [|] regs lg]; simpl; split; trivial.
    now rewrite app_nil_r.
Qed.

End Handlers.

(** ** The handlers on the in-memory workspace *)
Module DemoRuns.

Import Demo.



(** C2, counterexample: XYZ is the key of no team of the workspace, whose
    teams are ENG and PRD; the response is the no-tickets text and names
    neither key. *)
Lemma list_tickets_unknown_key_lists_no_keys :
  Js.find (key_matches "XYZ") (db_teams db0) = None
  /\ exists r,
       outcome (linear_list_tickets service list_xyz) (start db0) = Returned r
       /\ response_text r = tickets_header list_xyz ++ "No tickets found."
       /\ Js.includes (response_text r) "ENG" = false
       /\ ~ enumerates_keys (response_text r) (db_teams db0).
Proof.
  split; [reflexivity|]. eexists. split; [reflexivity|].
  split; [reflexivity|]. split; [reflexivity|].
  intros H. specialize (H eng (or_introl eq_refl)). discriminate.
Qed.

Lemma In_firstn {A} (n : nat) (l : list A) (x : A) : In x (firstn n l) -> In x l.
Proof.
  revert l. induction n as [|n IH]; intros [|a l] H; simpl in *; try contradiction.
  destruct H as [H|H]; [now left|right; now apply IH].
Qed.

Lemma service_honours_filter : honours_filter service.
Proof.
  intros s f l. simpl. unfold on_issues.
  destruct (reachable s); simpl; [|exact I].
  destruct (l <? 0)%Z; simpl; [exact I|].
  apply Forall_forall. intros i Hi. apply In_firstn in Hi.
  apply filter_In in Hi as [_ Hm]. unfold matches in Hm.
  apply andb_true_iff in Hm as [Hm _]. now apply String.eqb_eq in Hm.
Qed.

(** C2 on the workspace: the key goes out as given; the ticket returned
    for ENG is of team ENG; the unknown key XYZ gets the no-tickets text. *)
Lemma list_tickets_exact_key_witness :
  honours_filter service
  /\ sent (linear_list_tickets service list_eng_one) (start db0)
     = [ListIssues {| filter_teamKey := "ENG"; filter_stateName := None |} 1%Z]
  /\ Forall (fun t => team_of_ticket t = "ENG") [mapIssue eng1]
  /\ outcome (linear_list_tickets service list_xyz) (start db0)
     = Returned (textResponse (tickets_header list_xyz ++ "No tickets found.")).
Proof.
  split; [exact service_honours_filter|].
  pose (T := list_tickets_exact_key service list_eng_one (start db0)).
  split; [exact (proj1 T)|].
  split; [exact (proj2 (proj2 (proj2 (proj2 T))) service_honours_filter)|].
  exact (proj1 (proj2 (proj2 (proj2 (list_tickets_exact_key service list_xyz (start db0)))))).
Defined.

(** C3 on the workspace, the two paths of [getTicket]: where the single-entity
    query takes identifiers it answers alone; where it does not, the search
    returns the same normalized ticket; an identifier of no ticket is not
    found. *)
Lemma getTicket_primary_then_search_witness :
  (outcome (getTicket service "ENG-1") (start db0) = Returned (mapIssue eng1)
   /\ sent (getTicket service "ENG-1") (start db0) = [GetIssue "ENG-1"])
  /\ (sent (getTicket service "ENG-1") (start db_opaque)
        = [GetIssue "ENG-1"; SearchIssue "ENG-1" 1]
      /\ outcome (getTicket service "ENG-1") (start db_opaque) = Returned (mapIssue eng1))
  /\ outcome (getTicket service "ENG-9") (start db_opaque) = Threw (not_found "ENG-9").
Proof.
  split; [exact (proj2 (getTicket_primary_then_search service "ENG-1" (start db0)))|].
  split; [exact (proj2 (getTicket_primary_then_search service "ENG-1" (start db_opaque)))|].
  exact (proj2 (proj2 (getTicket_primary_then_search service "ENG-9" (start db_opaque)))).
Defined.

(** C3, counterexample: behind a broken transport both paths fail, and
    [getTicket] fails with the transport's error: it neither returns a
    ticket nor throws the not-found error. *)
Lemma getTicket_search_failure_propagates :
  primary_hit (snd (issue service db_down "ENG-1")) = None
  /\ outcome (getTicket service "ENG-1") (start db_down)
     = Threw (RequestError "fetch failed")
  /\ outcome (getTicket service "ENG-1") (start db_down) <> Threw (not_found "ENG-1")
  /\ (forall t, outcome (getTicket service "ENG-1") (start db_down) <> Returned t).
Proof. repeat split; try reflexivity; discriminate. Qed.



(** C5 on the workspace: the one mutation sent sets the priority only. *)
Lemma update_priority_only_witness :
  up_title urgent = None /\ up_description urgent = None /\ up_status urgent = None
  /\ up_priority urgent = Some 1%Z
  /\ sent (linear_update_ticket service urgent) (start db0)
     = [GetIssue "ENG-1"; UpdateIssue "issue-1" (priority_only 1)].
Proof.
  do 4 (split; [reflexivity|]).
  exact (proj2 (update_priority_only service urgent 1 (start db0)
                  eq_refl eq_refl eq_refl eq_refl)).
Defined.




(** C8 on the workspace. *)
Lemma assignTicket_is_updateTicket_witness :
  sets_only_assignee (assignee_only "u-1") "u-1"
  /\ assignTicket service "ENG-1" "u-1" (start db0)
     = updateTicket service "ENG-1" (assignee_only "u-1") (start db0).
Proof.
  assert (H : sets_only_assignee (assignee_only "u-1") "u-1") by (repeat split).
  split; [exact H|].
  exact (assignTicket_is_updateTicket service "ENG-1" "u-1" (assignee_only "u-1")
           (start db0) H).
Defined.

(** C9, counterexample: a host that gives no logger and no API key gets no
    report of the missing credential at all. *)
Lemma missing_key_unreported_without_logger :
  Js.truthy_opt (apiKey (config host_without_logger)) = false
  /\ registered (register service host_without_logger) = []
  /\ logged (register service host_without_logger) = []
  /\ length (logged (register service host_without_logger)) <> 1%nat.
Proof. repeat split. discriminate. Qed.

(** C9 on a host with a logger: one warning and no tool for an empty key,
    the six tools for a key. *)
Lemma register_requires_api_key_witness :
  logged (register service host_with_logger) = [missing_key_warning]
  /\ registered (register service host_with_logger) = []
  /\ map (fun r => tool_name (reg_schema r)) (registered (register service host_with_key))
     = tool_names.
Proof.
  split; [exact (proj2 (register_requires_api_key service host_with_logger))|].
  split; [exact (proj1 (register_requires_api_key service host_with_logger))|].
  exact (proj1 (register_requires_api_key service host_with_key)).
Defined.

(** C10 on the workspace: empty title and description, priority 0. *)
Lemma update_truthiness_gates_witness :
  up_title blank_fields = Some EmptyString
  /\ up_description blank_fields = Some EmptyString
  /\ up_priority blank_fields = Some 0%Z
  /\ up_status blank_fields = None
  /\ In (UpdateIssue "issue-1" (priority_only 0))
        (sent (linear_update_ticket service blank_fields) (start db0)).
Proof.
  do 4 (split; [reflexivity|]).
  exact (proj2 (proj2 (proj2 (update_truthiness_gates service blank_fields (start db0))))
           eq_refl (mapIssue eng1) (after (start db0) db0 [GetIssue "ENG-1"]) eq_refl).
Defined.

End DemoRuns.

(** * The rest of the code *)

(** ** Identifier prefixes, case folding and normalization *)
Section KeysAndNormalization.

Variable R : Remote.

Lemma lower_ascii_idempotent (c : ascii) :
  Js.lower_ascii (Js.lower_ascii c) = Js.lower_ascii c.
Proof. destruct c as [[] [] [] [] [] [] [] []]; reflexivity. Qed.

Lemma toLowerCase_idempotent (s : string) :
  Js.toLowerCase (Js.toLowerCase s) = Js.toLowerCase s.
Proof.
  induction s as [|c s IH]; simpl; [reflexivity|].
  now rewrite lower_ascii_idempotent, IH.
Qed.

Lemma find_ext {A} (p q : A -> bool) (l : list A) :
  (forall x, p x = q x) -> Js.find p l = Js.find q l.
Proof.
  intros E. unfold Js.find. induction l as [|a l IH]; simpl; [reflexivity|].
  now rewrite E, IH.
Qed.

(** X1: the team key that status resolution reads off an identifier,
    [identifier.split("-")[0]], never contains a dash; it is the prefix
    before the first dash when the prefix has none, and the whole
    identifier when the identifier has no dash at all. *)
Theorem split_head_prefix (sep : ascii) (s key rest : string) :
  mem_char sep (Js.split_head sep s) = false
  /\ (mem_char sep key = false ->
      Js.split_head sep (key ++ String sep rest) = key)
  /\ (mem_char sep s = false -> Js.split_head sep s = s).
Proof.
  split; [|split].
  - induction s as [|c s IH]; simpl; [reflexivity|].
    destruct (Ascii.eqb c sep) eqn:E; simpl; [reflexivity|]. now rewrite E.
  - induction key as [|c key IH]; simpl; intros H.
    + now rewrite Ascii.eqb_refl.
    + apply orb_false_iff in H as [H1 H2]. now rewrite H1, IH.
  - induction s as [|c s IH]; simpl; intros H; [reflexivity|].
    apply orb_false_iff in H as [H1 H2]. now rewrite H1, IH.
Qed.

(** X2: team resolution ignores the case of the supplied key: two keys
    with the same lower-case form resolve to the same team in every list
    of teams, and so does a key and its lower-case form. *)
Theorem team_resolution_ignores_case (key : string) (ts : list Team) :
  Js.find (key_matches (Js.toLowerCase key)) ts = Js.find (key_matches key) ts
  /\ (forall key', Js.toLowerCase key' = Js.toLowerCase key ->
                   Js.find (key_matches key') ts = Js.find (key_matches key) ts).
Proof.
  split.
  - apply find_ext. intros t. unfold key_matches. now rewrite toLowerCase_idempotent.
  - intros key' E. apply find_ext. intros t. unfold key_matches. now rewrite E.
Qed.

(** X3: create-ticket called with another spelling of the same key (equal
    up to case) sends the same requests and leaves the remote in the same
    state. *)
Theorem create_ticket_key_case (params : CreateParams) (key : string) (w : World R) :
  Js.toLowerCase key = Js.toLowerCase (cp_projectKey params) ->
  snd (linear_create_ticket R (with_projectKey params key) w)
  = snd (linear_create_ticket R params w).
Proof.
  intros E. unfold linear_create_ticket. rewrite !caught. simpl.
  rewrite !create_body_run. cbv zeta. simpl cp_projectKey.
  destruct (snd (teams R (remote w))) as [ts|m]; [|reflexivity].
  replace (Js.find (key_matches key) ts)
    with (Js.find (key_matches (cp_projectKey params)) ts).
  - destruct (Js.find _ ts); reflexivity.
  - apply find_ext. intros t. unfold key_matches. now rewrite E.
Qed.

(** X4: normalization loses nothing: two payloads with the same normalized
    ticket are the same payload. *)
Theorem mapIssue_injective (i j : RawIssue) : mapIssue i = mapIssue j -> i = j.
Proof.
  destruct i as [a1 a2 a3 a4 a5 a6 a7 [s1 s2] u1], j as [b1 b2 b3 b4 b5 b6 b7 [t1 t2] u2].
  unfold mapIssue. simpl. intros H. injection H as -> -> -> -> -> -> -> -> Hu ->.
  f_equal.
  destruct u1 as [[x1 x2 x3 x4]|], u2 as [[y1 y2 y3 y4]|]; simpl in Hu;
    try discriminate; [|reflexivity].
  now injection Hu as -> -> -> ->.
Qed.

End KeysAndNormalization.

(** ** Rendering *)
Section Rendering.

Lemma includes_join_elem (sep y x : string) (l : list string) :
  In y l -> Js.includes y x = true -> Js.includes (Js.join sep l) x = true.
Proof.
  induction l as [|z l IH]; intros HIn Hx; [destruct HIn|].
  destruct HIn as [->|HIn].
  - destruct l as [|z' l]; simpl; [exact Hx|now apply includes_app_l].
  - destruct l as [|z' l]; [destruct HIn|].
    change (Js.join sep (z :: z' :: l)) with (z ++ sep ++ Js.join sep (z' :: l)).
    now apply includes_app_r, includes_app_r, IH.
Qed.

Lemma join_map_includes {A} (sep x : string) (f : A -> string) (l : list A) (a : A) :
  In a l -> Js.includes (f a) x = true -> Js.includes (Js.join sep (map f l)) x = true.
Proof.
  intros HIn Hx. apply includes_join_elem with (y := f a); [now apply in_map|exact Hx].
Qed.

(** X5: the ticket list names every ticket it is given: the identifier,
    the title and the status name of each ticket occur in the text, and
    the assignee's name when the ticket has one. *)
Theorem formatTicketList_names_every_ticket (tickets : list LinearTicket)
    (t : LinearTicket) :
  In t tickets ->
  Js.includes (formatTicketList tickets) (identifier t) = true
  /\ Js.includes (formatTicketList tickets) (title t) = true
  /\ Js.includes (formatTicketList tickets) (status_name (status t)) = true
  /\ (forall u, assignee t = Some u ->
                Js.includes (formatTicketList tickets) (user_name u) = true).
Proof.
  intros HIn. destruct tickets as [|t0 ts]; [destruct HIn|].
  unfold formatTicketList.
  repeat split; try intros u Hu;
    apply (join_map_includes Js.nl _ _ (t0 :: ts) t HIn).
  - apply includes_app_r, includes_app_l, includes_self.
  - do 3 apply includes_app_r. apply includes_app_l, includes_self.
  - do 5 apply includes_app_r. apply includes_app_l, includes_self.
  - rewrite Hu. do 7 apply includes_app_r. apply includes_app_r, includes_app_l, includes_self.
Qed.

(** X6: the user list names every user it is given: the name, the e-mail
    address and the id of each user occur in the text, and an inactive
    user is marked as such. *)
Theorem formatUserList_names_every_user (us : list LinearUser) (u : LinearUser) :
  In u us ->
  Js.includes (formatUserList us) (user_name u) = true
  /\ Js.includes (formatUserList us) (user_email u) = true
  /\ Js.includes (formatUserList us) (user_id u) = true
  /\ (user_active u = false -> Js.includes (formatUserList us) "[inactive]" = true).
Proof.
  intros HIn. destruct us as [|u0 us]; [destruct HIn|].
  unfold formatUserList.
  repeat split; try intros Hu;
    apply (join_map_includes Js.nl _ _ (u0 :: us) u HIn).
  - apply includes_app_r, includes_app_l, includes_self.
  - do 3 apply includes_app_r. apply includes_app_l, includes_self.
  - do 5 apply includes_app_r. apply includes_app_l, includes_self.
  - rewrite Hu. do 7 apply includes_app_r. apply includes_self.
Qed.

(** X7: the ticket detail block shows the identifier, the title, the
    status name, the priority label and the URL of the ticket; a ticket
    with no assignee is shown as unassigned; and a null description and an
    empty one render the same text. *)
Theorem formatTicket_shows_fields (t : LinearTicket) :
  Js.includes (formatTicket t) (identifier t) = true
  /\ Js.includes (formatTicket t) (title t) = true
  /\ Js.includes (formatTicket t) (status_name (status t)) = true
  /\ Js.includes (formatTicket t) (priorityLabel t) = true
  /\ Js.includes (formatTicket t) (url t) = true
  /\ (assignee t = None -> Js.includes (formatTicket t) "Assignee: Unassigned" = true)
  /\ formatTicket (with_description t (Some EmptyString))
     = formatTicket (with_description t None).
Proof.
  unfold formatTicket.
  split; [|split; [|split; [|split; [|split; [|split]]]]].
  - eapply includes_join_elem; [left; reflexivity|].
    apply includes_app_r, includes_app_l, includes_self.
  - eapply includes_join_elem; [left; reflexivity|].
    do 3 apply includes_app_r. apply includes_self.
  - eapply includes_join_elem; [right; left; reflexivity|].
    apply includes_app_r, includes_self.
  - eapply includes_join_elem; [right; right; left; reflexivity|].
    apply includes_app_r, includes_self.
  - eapply includes_join_elem; [do 5 right; left; reflexivity|].
    do 2 apply includes_app_r. apply includes_self.
  - intros Hu. eapply includes_join_elem; [do 3 right; left; reflexivity|].
    rewrite Hu. apply includes_self.
  - reflexivity.
Qed.

(** X8: the status-miss message of update-ticket names the status asked
    for and every status of the team. *)
Theorem status_not_found_enumerates (name : string) (states : list RawState)
    (s : RawState) :
  In s states ->
  Js.includes (status_not_found name states) (state_name s) = true
  /\ Js.includes (status_not_found name states) name = true.
Proof.
  intros HIn. unfold status_not_found. split.
  - do 5 apply includes_app_r. apply includes_join. now apply in_map.
  - do 2 apply includes_app_r. apply includes_app_l, includes_self.
Qed.

End Rendering.

(** ** The client's mutations *)
Section Mutations.

Variable R : Remote.

Lemma createTicket_run (input : CreateTicketInput) (w : World R) :
  createTicket R input w =
  let a := issueCreate R (remote w) input in
  (match snd a with
   | Data (true, Some i) => Returned (mapIssue i)
   | Data (true, None) => Threw (TypeError "Cannot read properties of null (reading 'id')")
   | Data (false, _) => Threw (NewError "Failed to create ticket")
   | Rejected m => Threw (RequestError m)
   end,
   after w (fst a) [CreateIssue input]).
Proof.
  unfold createTicket, bind. rewrite request_run. cbv zeta.
  destruct (snd (issueCreate R (remote w) input)) as [[[|] [i|]]|m]; reflexivity.
Qed.

(** X9: [updateTicket] fails with whatever [getTicket] fails with, and then
    sends no mutation; once the ticket is resolved it sends one update
    mutation, addressed by the ticket's internal id and carrying the
    updates as given, and fails with its own error when the remote reports
    the mutation as unsuccessful, whatever issue comes with that report. *)
Theorem updateTicket_outcomes (ident : string) (u : TicketUpdateInput) (w : World R) :
  match getTicket R ident w with
  | (Threw e, w1) =>
      updateTicket R ident u w = (Threw e, w1)
      /\ queries_only (sent (updateTicket R ident u) w) = true
  | (Returned t, w1) =>
      sent (updateTicket R ident u) w
      = (sent (getTicket R ident) w ++ [UpdateIssue (id t) u])%list
      /\ match snd (issueUpdate R (remote w1) (id t) u) with
         | Data (true, Some i) => outcome (updateTicket R ident u) w = Returned (mapIssue i)
         | Data (false, _) =>
             outcome (updateTicket R ident u) w = Threw (NewError "Failed to update ticket")
         | Data (true, None) => exists m, outcome (updateTicket R ident u) w = Threw (TypeError m)
         | Rejected m => outcome (updateTicket R ident u) w = Threw (RequestError m)
         end
  end.
Proof.
  pose proof (sent_updateTicket R ident u w) as S.
  pose proof (updateTicket_run R ident u w) as Run.
  pose proof (getTicket_no_mutation R ident w) as Q.
  destruct (getTicket R ident w) as [[t|e] w1].
  - split; [exact S|]. unfold outcome. rewrite Run. cbv zeta.
    destruct (snd (issueUpdate R (remote w1) (id t) u)) as [[[|] [i|]]|m];
      simpl; try reflexivity. eexists; reflexivity.
  - split; [exact Run|]. unfold queries_only. now rewrite S.
Qed.

(** X10: create-ticket, once the key resolves to a team, sends the create
    mutation for that team's id after the teams query and nothing else.
    It answers with the identifier and the URL of the created issue; when
    the remote reports the creation as unsuccessful, or rejects the
    request, it answers with the failure phrase and the error's message
    instead. *)
Theorem create_ticket_responses (params : CreateParams) (w : World R) (ts : list Team)
    (team : Team) :
  snd (teams R (remote w)) = Data ts ->
  Js.find (key_matches (cp_projectKey params)) ts = Some team ->
  let input := {| new_title := cp_title params;
                  new_teamId := team_id team;
                  new_description := cp_description params;
                  new_assigneeId := cp_assigneeId params |} in
  sent (linear_create_ticket R params) w = [GetTeams; CreateIssue input]
  /\ match snd (issueCreate R (fst (teams R (remote w))) input) with
     | Data (true, Some i) =>
         outcome (linear_create_ticket R params) w =
         Returned (textResponse ("Created ticket **" ++ issue_identifier i ++ "**"
                                 ++ Js.nl ++ Js.nl ++ "URL: " ++ issue_url i))
     | Data (false, _) =>
         outcome (linear_create_ticket R params) w =
         Returned (textResponse "Failed to create ticket: Failed to create ticket")
     | Data (true, None) =>
         Js.startsWith (match outcome (linear_create_ticket R params) w with
                        | Returned r => response_text r
                        | Threw _ => EmptyString
                        end) "Failed to create ticket: " = true
     | Rejected m =>
         outcome (linear_create_ticket R params) w =
         Returned (textResponse ("Failed to create ticket: " ++ m))
     end.
Proof.
  intros Hts F input.
  assert (Run : create_ticket_body R params w =
                (ticket <- createTicket R input ;;
                 ret (textResponse ("Created ticket **" ++ identifier ticket ++ "**"
                                    ++ Js.nl ++ Js.nl ++ "URL: " ++ url ticket)))
                  (after w (fst (teams R (remote w))) [GetTeams])).
  { rewrite create_body_run. cbv zeta. now rewrite Hts, F. }
  unfold bind in Run. rewrite createTicket_run in Run. cbv zeta in Run.
  simpl remote in Run. rewrite after_after in Run. simpl app in Run.
  split.
  - unfold linear_create_ticket. rewrite sent_caught. apply sent_appended.
    rewrite Run.
    destruct (snd (issueCreate R _ input)) as [[[|] [i|]]|m]; reflexivity.
  - unfold outcome, linear_create_ticket. rewrite caught, Run.
    destruct (snd (issueCreate R _ input)) as [[[|] [i|]]|m]; reflexivity.
Qed.

(** X11: assign-ticket, once the ticket is resolved, sends the update
    mutation that sets only the assignee, addressed by the ticket's
    internal id; when that succeeds the response names the identifier and
    the assignee of the issue the remote returned, or the word user when
    that issue has no assignee or an assignee with an empty name. *)
Theorem assign_ticket_responses (params : AssignParams) (w w1 : World R)
    (t : LinearTicket) (i : RawIssue) :
  getTicket R (ap_identifier params) w = (Returned t, w1) ->
  snd (issueUpdate R (remote w1) (id t) (assignee_only (ap_userId params)))
  = Data (true, Some i) ->
  sent (linear_assign_ticket R params) w
  = (sent (getTicket R (ap_identifier params)) w
     ++ [UpdateIssue (id t) (assignee_only (ap_userId params))])%list
  /\ outcome (linear_assign_ticket R params) w
     = Returned (textResponse ("Assigned **" ++ issue_identifier i ++ "** to "
                               ++ shown_assignee (mapIssue i)))
  /\ (issue_assignee i = None -> shown_assignee (mapIssue i) = "user").
Proof.
  intros G A.
  pose proof (updateTicket_run R (ap_identifier params) (assignee_only (ap_userId params)) w)
    as Run.
  rewrite G in Run. cbv zeta in Run. rewrite A in Run.
  split; [|split].
  - unfold linear_assign_ticket. rewrite sent_caught.
    unfold assign_ticket_body, assignTicket.
    rewrite sent_bind; auto with appends.
    rewrite Run, sent_ret, app_nil_r, sent_updateTicket, G. reflexivity.
  - unfold outcome, linear_assign_ticket. rewrite caught.
    unfold assign_ticket_body, assignTicket, bind. rewrite Run. reflexivity.
  - intros H. unfold shown_assignee, mapIssue. simpl. now rewrite H.
Qed.

End Mutations.

(** ** Reads and the status path of update-ticket *)
Section ReadsAndStatus.

Variable R : Remote.

(** X12: read-ticket renders the ticket [getTicket] returns and turns its
    failure into the failure line; in particular an identifier that
    neither path finds is answered with the not-found line.  It sends what
    [getTicket] sends, never a mutation. *)
Theorem read_ticket_responses (params : ReadParams) (w : World R) :
  let ident := rp_identifier params in
  sent (linear_read_ticket R params) w = sent (getTicket R ident) w
  /\ queries_only (sent (linear_read_ticket R params) w) = true
  /\ match outcome (getTicket R ident) w with
     | Returned t =>
         outcome (linear_read_ticket R params) w = Returned (textResponse (formatTicket t))
     | Threw e =>
         outcome (linear_read_ticket R params) w =
         Returned (textResponse ("Failed to get ticket: " ++ message_of e))
     end
  /\ (primary_hit (snd (issue R (remote w) ident)) = None ->
      snd (issuesByIdentifier R (fst (issue R (remote w) ident)) ident 1) = Data [] ->
      outcome (linear_read_ticket R params) w =
      Returned (textResponse ("Failed to get ticket: Ticket " ++ ident ++ " not found"))).
Proof.
  intros ident.
  assert (S : sent (linear_read_ticket R params) w = sent (getTicket R ident) w).
  { unfold linear_read_ticket. rewrite sent_caught. unfold read_ticket_body.
    rewrite sent_bind; auto with appends. fold ident.
    destruct (getTicket R ident w) as [[t|e] w1]; [|reflexivity].
    now rewrite sent_ret, app_nil_r. }
  assert (O : outcome (linear_read_ticket R params) w =
              match outcome (getTicket R ident) w with
              | Returned t => Returned (textResponse (formatTicket t))
              | Threw e => Returned (textResponse ("Failed to get ticket: " ++ message_of e))
              end).
  { unfold outcome, linear_read_ticket. rewrite caught.
    unfold read_ticket_body, bind. fold ident.
    destruct (getTicket R ident w) as [[t|e] w1]; reflexivity. }
  split; [exact S|]. split; [|split].
  - unfold queries_only. rewrite S. apply getTicket_no_mutation.
  - rewrite O. destruct (outcome (getTicket R ident) w); reflexivity.
  - intros Hp Hs. rewrite O. unfold outcome. rewrite getTicket_run. cbv zeta.
    now rewrite Hp, Hs.
Qed.

(** X13: list-users sends the users query and nothing else; it renders the
    users the remote returns, in order, under a fixed header, and the fixed
    no-users line when there are none; a rejected query is answered with
    the failure line. *)
Theorem get_users_responses (w : World R) :
  sent (linear_get_users R tt) w = [GetUsers]
  /\ match snd (users R (remote w)) with
     | Data [] =>
         outcome (linear_get_users R tt) w =
         Returned (textResponse ("**Linear Users:**" ++ Js.nl ++ Js.nl ++ "No users found."))
     | Data nodes =>
         outcome (linear_get_users R tt) w =
         Returned (textResponse ("**Linear Users:**" ++ Js.nl ++ Js.nl
                                 ++ formatUserList (map mapUser nodes)))
     | Rejected m =>
         outcome (linear_get_users R tt) w =
         Returned (textResponse ("Failed to get users: " ++ m))
     end.
Proof.
  assert (Run : linear_get_users R tt w =
                (match snd (users R (remote w)) with
                 | Data nodes =>
                     Returned (textResponse ("**Linear Users:**" ++ Js.nl ++ Js.nl
                                             ++ formatUserList (map mapUser nodes)))
                 | Rejected m => Returned (textResponse ("Failed to get users: " ++ m))
                 end,
                 after w (fst (users R (remote w))) [GetUsers])).
  { unfold linear_get_users. rewrite caught.
    unfold get_users_body, getUsers, bind. rewrite request_run.
    destruct (snd (users R (remote w))); reflexivity. }
  split.
  - apply sent_appended. now rewrite Run.
  - unfold outcome. rewrite Run.
    destruct (snd (users R (remote w))) as [[|n ns]|m]; reflexivity.
Qed.

(** X14: when update-ticket is given a status name that matches a state of
    the ticket's team, the update mutation carries the id of a state whose
    name equals the given name up to case, together with the title,
    description and priority the call supplies; the ticket is looked up
    again before the mutation. *)
Theorem update_ticket_resolved_status (params : UpdateParams) (name : string)
    (w w1 w4 : World R) (t0 t : LinearTicket) (ts : list Team) (team : Team)
    (states : list RawState) (state : RawState) :
  up_status params = Some name ->
  Js.truthy name = true ->
  getTicket R (up_identifier params) w = (Returned t0, w1) ->
  snd (teams R (remote w1)) = Data ts ->
  Js.find (key_matches (Js.split_head "-" (up_identifier params))) ts = Some team ->
  snd (teamStates R (fst (teams R (remote w1))) (team_id team)) = Data states ->
  Js.find (name_matches name) states = Some state ->
  getTicket R (up_identifier params)
    (after w1 (fst (teamStates R (fst (teams R (remote w1))) (team_id team)))
       [GetTeams; GetStates (team_id team)])
  = (Returned t, w4) ->
  In state states
  /\ Js.toLowerCase (state_name state) = Js.toLowerCase name
  /\ In (UpdateIssue (id t) (with_stateId (field_updates params) (state_id state)))
        (sent (linear_update_ticket R params) w).
Proof.
  intros Hn Ht G Hts F Hst Fs G2.
  pose proof (find_some _ _ Fs) as [HIn Hm].
  split; [exact HIn|]. split; [now apply name_matches_iff|].
  pose proof (resolve_status_run R params (field_updates params) w) as Run.
  rewrite Hn in Run. simpl Js.truthy_opt in Run. rewrite Ht, G in Run.
  cbv zeta in Run. rewrite Hts, F, Hst, Fs in Run. rewrite after_after in Run.
  simpl app in Run.
  rewrite sent_update_body, Run, sent_updateTicket, G2.
  apply in_or_app. right. apply in_or_app. right. now left.
Qed.

(** X15: a status name makes update-ticket depend on three lookups: when
    the ticket lookup, the teams query or the states query fails, the call
    is answered with the failure line for that error and no mutation is
    sent, whatever other fields it supplies. *)
Theorem update_ticket_lookup_failures (params : UpdateParams) (w : World R) :
  Js.truthy_opt (up_status params) = true ->
  match getTicket R (up_identifier params) w with
  | (Threw e, w1) =>
      linear_update_ticket R params w =
      (Returned (textResponse ("Failed to update ticket: " ++ message_of e)), w1)
  | (Returned _, w1) =>
      match snd (teams R (remote w1)) with
      | Rejected m =>
          outcome (linear_update_ticket R params) w =
          Returned (textResponse ("Failed to update ticket: " ++ m))
          /\ queries_only (sent (linear_update_ticket R params) w) = true
      | Data ts =>
          match Js.find (key_matches (Js.split_head "-" (up_identifier params))) ts with
          | Some team =>
              match snd (teamStates R (fst (teams R (remote w1))) (team_id team)) with
              | Rejected m =>
                  outcome (linear_update_ticket R params) w =
                  Returned (textResponse ("Failed to update ticket: " ++ m))
                  /\ queries_only (sent (linear_update_ticket R params) w) = true
              | Data _ => True
              end
          | None => True
          end
      end
  end.
Proof.
  intros Hs.
  pose proof (resolve_status_run R params (field_updates params) w) as Run.
  pose proof (resolve_status_queries R params (field_updates params) w) as Q.
  pose proof (sent_update_body R params w) as S.
  rewrite Hs in Run.
  assert (O : forall e w', resolve_status R params (field_updates params) w = (Threw e, w') ->
              linear_update_ticket R params w =
              (Returned (textResponse ("Failed to update ticket: " ++ message_of e)), w')).
  { intros e w' E. unfold linear_update_ticket. rewrite caught.
    unfold update_ticket_body, bind. now rewrite E. }
  destruct (getTicket R (up_identifier params) w) as [[t0|e] w1]; [|now apply O].
  cbv zeta in Run.
  destruct (snd (teams R (remote w1))) as [ts|m].
  - destruct (Js.find _ ts) as [team|]; [|exact I].
    destruct (snd (teamStates R _ _)) as [states|m]; [exact I|].
    split; [unfold outcome; now rewrite (O _ _ Run)|].
    unfold queries_only. rewrite S, Run. exact Q.
  - split; [unfold outcome; now rewrite (O _ _ Run)|].
    unfold queries_only. rewrite S, Run. exact Q.
Qed.

(** X16: an update-ticket call that supplies no field at all still sends
    an update mutation for the resolved ticket, one that provides no
    value. *)
Theorem update_ticket_without_fields (params : UpdateParams) (w w1 : World R)
    (t : LinearTicket) :
  up_title params = None ->
  up_description params = None ->
  up_status params = None ->
  up_priority params = None ->
  getTicket R (up_identifier params) w = (Returned t, w1) ->
  sent (linear_update_ticket R params) w
  = (sent (getTicket R (up_identifier params)) w ++ [UpdateIssue (id t) no_updates])%list.
Proof.
  intros Ht Hd Hs Hp G.
  assert (F : field_updates params = no_updates).
  { unfold field_updates, no_updates. now rewrite Ht, Hd, Hp. }
  rewrite sent_update_body, resolve_status_run, Hs, F. simpl.
  rewrite (sent_appended R (resolve_status R params no_updates) w []).
  - simpl. now rewrite sent_updateTicket, G.
  - rewrite resolve_status_run, Hs. simpl. now rewrite app_nil_r.
Qed.

End ReadsAndStatus.

(** ** What every handler sends *)
Section RequestShape.

Variable R : Remote.

Lemma getTicket_shape (ident : string) (w : World R) :
  queries_only (sent (getTicket R ident) w) = true
  /\ (length (sent (getTicket R ident) w) <= 2)%nat.
Proof.
  destruct (sent_getTicket R ident w) as [-> | ->]; simpl; split; trivial; lia.
Qed.

Lemma resolve_status_sent_cases (params : UpdateParams) (u0 : TicketUpdateInput)
    (w : World R) :
  let g := sent (getTicket R (up_identifier params)) w in
  sent (resolve_status R params u0) w = []
  \/ sent (resolve_status R params u0) w = g
  \/ sent (resolve_status R params u0) w = (g ++ [GetTeams])%list
  \/ exists tid, sent (resolve_status R params u0) w = (g ++ [GetTeams; GetStates tid])%list.
Proof.
  intros g.
  pose proof (resolve_status_run R params u0 w) as H.
  pose proof (trace_sent R _ w (appends_getTicket R (up_identifier params))) as T.
  fold g in T.
  destruct (Js.truthy_opt _).
  2:{ left. apply sent_appended. rewrite H. simpl. now rewrite app_nil_r. }
  destruct (getTicket R (up_identifier params) w) as [[t0|e] w1]; simpl in T.
  2:{ right. left. apply sent_appended. now rewrite H. }
  cbv zeta in H.
  assert (G : forall l o w', resolve_status R params u0 w = (o, w') ->
                trace w' = (trace w1 ++ l)%list ->
                sent (resolve_status R params u0) w = (g ++ l)%list).
  { intros l o w' E Tw. apply sent_appended. rewrite E. simpl.
    now rewrite Tw, T, app_assoc. }
  destruct (snd (teams R (remote w1))) as [ts|m].
  2:{ right. right. left. eapply G; [exact H|reflexivity]. }
  destruct (Js.find _ ts) as [team|].
  2:{ right. right. left. eapply G; [exact H|reflexivity]. }
  right. right. right. exists (team_id team).
  destruct (snd (teamStates R _ _)) as [states|m].
  2:{ eapply G; [exact H|]. simpl. now rewrite <- app_assoc. }
  destruct (Js.find _ states);
    (eapply G; [exact H|]; simpl; now rewrite <- app_assoc).
Qed.

Lemma resolve_status_shape (params : UpdateParams) (u0 : TicketUpdateInput) (w : World R) :
  queries_only (sent (resolve_status R params u0) w) = true
  /\ (length (sent (resolve_status R params u0) w) <= 4)%nat.
Proof.
  split; [apply resolve_status_queries|].
  destruct (getTicket_shape (up_identifier params) w) as [_ L].
  destruct (resolve_status_sent_cases params u0 w) as [E|[E|[E|[tid E]]]];
    rewrite E; rewrite ?length_app; simpl; lia.
Qed.

Lemma updateTicket_shape (ident : string) (u : TicketUpdateInput) (w : World R) :
  exists qs ms,
    sent (updateTicket R ident u) w = (qs ++ ms)%list
    /\ queries_only qs = true /\ (length qs <= 2)%nat
    /\ (ms = [] \/ exists m, is_mutation m = true /\ ms = [m]).
Proof.
  destruct (getTicket_shape ident w) as [Q L].
  exists (sent (getTicket R ident) w).
  rewrite sent_updateTicket.
  destruct (getTicket R ident w) as [[t|e] w1].
  - exists [UpdateIssue (id t) u]. repeat split; trivial.
    right. exists (UpdateIssue (id t) u). now split.
  - exists []. rewrite app_nil_r. repeat split; trivial. now left.
Qed.

Lemma handle_shape (i : Invocation) (w : World R) :
  exists qs ms,
    sent (handle R i) w = (qs ++ ms)%list
    /\ queries_only qs = true
    /\ (length qs <= query_bound i)%nat
    /\ (ms = [] \/ (mutating i = true /\ exists m, is_mutation m = true /\ ms = [m])).
Proof.
  destruct i as [p|p|p|p|p|]; simpl handle.
  - (* create *)
    unfold linear_create_ticket.
    assert (T : exists ms, trace (snd (create_ticket_body R p w))
                           = (trace w ++ [GetTeams] ++ ms)%list
                           /\ (ms = [] \/ exists m, is_mutation m = true /\ ms = [m])).
    { rewrite create_body_run. cbv zeta.
      destruct (snd (teams R (remote w))) as [ts|m]; [|exists []; split; [reflexivity|now left]].
      destruct (Js.find _ ts) as [team|]; [|exists []; split; [reflexivity|now left]].
      eexists [CreateIssue _]. split.
      - unfold bind.
        pose proof (createTicket_sent R
                      {| new_title := cp_title p; new_teamId := team_id team;
                         new_description := cp_description p;
                         new_assigneeId := cp_assigneeId p |}
                      (after w (fst (teams R (remote w))) [GetTeams])) as C.
        destruct (createTicket R _ _) as [[ticket|e] w2]; simpl in *;
          now rewrite C, <- app_assoc.
      - right. eexists. split; [|reflexivity]. reflexivity. }
    destruct T as (ms & T & Hms).
    exists [GetTeams], ms. rewrite sent_caught. split; [now apply sent_appended|].
    repeat split; simpl; trivial.
    destruct Hms as [->|Hm]; [now left|right; now split].
  - (* read *)
    exists (sent (getTicket R (rp_identifier p)) w), [].
    destruct (getTicket_shape (rp_identifier p) w) as [Q L].
    rewrite app_nil_r. repeat split; trivial; [|now left].
    unfold linear_read_ticket. rewrite sent_caught. unfold read_ticket_body.
    rewrite sent_bind; auto with appends.
    destruct (getTicket R (rp_identifier p) w) as [[t|e] w1]; [|reflexivity].
    now rewrite sent_ret, app_nil_r.
  - (* update *)
    destruct (resolve_status_shape p (field_updates p) w) as [Q L].
    rewrite sent_update_body.
    destruct (resolve_status R p (field_updates p) w) as [[[r|u]|e] w1].
    + exists (sent (resolve_status R p (field_updates p)) w), [].
      rewrite app_nil_r. repeat split; trivial; [simpl; lia|now left].
    + destruct (updateTicket_shape (up_identifier p) u w1) as (qs & ms & E & Q2 & L2 & Hms).
      exists (sent (resolve_status R p (field_updates p)) w ++ qs)%list, ms.
      rewrite E, app_assoc. repeat split.
      * unfold queries_only in *. now rewrite forallb_app, Q, Q2.
      * rewrite length_app. simpl. lia.
      * destruct Hms as [->|Hm]; [now left|right; now split].
    + exists (sent (resolve_status R p (field_updates p)) w), [].
      rewrite app_nil_r. repeat split; trivial; [simpl; lia|now left].
  - (* assign *)
    destruct (updateTicket_shape (ap_identifier p) (assignee_only (ap_userId p)) w)
      as (qs & ms & E & Q & L & Hms).
    exists qs, ms. repeat split; trivial.
    + unfold linear_assign_ticket. rewrite sent_caught.
      unfold assign_ticket_body, assignTicket.
      rewrite sent_bind; auto with appends.
      destruct (updateTicket R _ _ w) as [[t|e] w1]; [|exact E].
      now rewrite sent_ret, app_nil_r.
    + destruct Hms as [->|Hm]; [now left|right; now split].
  - (* list *)
    exists [ListIssues (list_filter p) (limit_or_default (lp_limit p))], [].
    split; [apply sent_appended; now rewrite list_handler_run|].
    split; [reflexivity|]. split; [simpl; lia|now left].
  - (* users *)
    exists [GetUsers], [].
    split; [|split; [reflexivity|split; [simpl; lia|now left]]].
    unfold linear_get_users. rewrite sent_caught. apply sent_appended.
    unfold get_users_body, getUsers, bind. rewrite request_run.
    destruct (snd (users R (remote w))); reflexivity.
Qed.

(** X17: whatever the remote answers, a handler sends at most one
    mutation, and when it sends one it is the last request of the call:
    everything before it is a query and nothing follows it.  Read-ticket,
    list-tickets and list-users never send a mutation. *)
Theorem mutation_is_last (i : Invocation) (w : World R) :
  (exists qs, queries_only qs = true
     /\ (sent (handle R i) w = qs
         \/ exists m, is_mutation m = true /\ sent (handle R i) w = (qs ++ [m])%list))
  /\ (mutating i = false -> queries_only (sent (handle R i) w) = true).
Proof.
  destruct (handle_shape i w) as (qs & ms & E & Q & _ & Hms). split.
  - exists qs. split; [exact Q|].
    destruct Hms as [->|(_ & m & Hm & ->)].
    + left. now rewrite E, app_nil_r.
    + right. exists m. now split.
  - intros NM. destruct Hms as [->|(M & _)]; [|congruence].
    now rewrite E, app_nil_r.
Qed.

(** X18: a call costs a bounded number of requests whatever the remote
    answers: at most two for create-ticket and read-ticket, three for
    assign-ticket, one for list-tickets and list-users, and seven for
    update-ticket (two ticket lookups of up to two requests each, the teams
    and states queries and the mutation). *)
Theorem requests_bounded (i : Invocation) (w : World R) :
  (length (sent (handle R i) w) <= request_bound i)%nat
  /\ (request_bound i <= 7)%nat.
Proof.
  split.
  - destruct (handle_shape i w) as (qs & ms & E & _ & L & Hms).
    rewrite E, length_app. unfold request_bound.
    destruct Hms as [->|(M & m & _ & ->)]; [|rewrite M];
      destruct (mutating i); simpl length; lia.
  - destruct i; unfold request_bound; simpl; lia.
Qed.

End RequestShape.

(** ** Declared bounds and registration *)
Section BoundsAndRegistration.

Variable R : Remote.

Lemma in_range_iff (lo hi n : Z) :
  ((lo <=? n) && (n <=? hi))%Z = true <-> (lo <= n <= hi)%Z.
Proof. rewrite andb_true_iff, !Z.leb_le. tauto. Qed.

(** X19: the declared schema of list-tickets accepts a call exactly when
    its limit is omitted or lies within 1..100; for an accepted call the
    [first] argument sent to the remote lies within 1..100 and is the
    limit given, or 50 when none is given. *)
Theorem list_schema_bounds_first (params : ListParams) (w : World R) :
  (check (inputSchema list_tickets_schema) (list_params_object params) = true
   <-> match lp_limit params with
       | Some l => (1 <= l <= 100)%Z
       | None => True
       end)
  /\ (check (inputSchema list_tickets_schema) (list_params_object params) = true ->
      exists l,
        sent (linear_list_tickets R params) w = [ListIssues (list_filter params) l]
        /\ (1 <= l <= 100)%Z
        /\ l = match lp_limit params with Some given => given | None => 50%Z end).
Proof.
  assert (C : check (inputSchema list_tickets_schema) (list_params_object params) = true
              <-> match lp_limit params with
                  | Some l => (1 <= l <= 100)%Z
                  | None => True
                  end).
  { destruct params as [k [st|] [l|]]; unfold check, list_params_object; cbn;
      rewrite ?andb_true_r; try apply in_range_iff; tauto. }
  split; [exact C|].
  intros H. apply C in H.
  exists (limit_or_default (lp_limit params)).
  split; [apply sent_appended; now rewrite list_handler_run|].
  destruct (lp_limit params) as [l|]; simpl; [|lia].
  destruct (Z.eqb_spec l 0); [lia|]. split; [exact H|reflexivity].
Qed.

(** X20: the declared schema of update-ticket accepts a call exactly when
    its priority is omitted or lies within 0..4; titles, descriptions and
    status names of any content, the empty string included, are
    accepted. *)
Theorem update_schema_bounds_priority (params : UpdateParams) :
  check (inputSchema update_ticket_schema) (update_params_object params) = true
  <-> match up_priority params with
      | Some n => (0 <= n <= 4)%Z
      | None => True
      end.
Proof.
  destruct params as [i [t|] [d|] [st|] [n|]]; unfold check, update_params_object; cbn;
    rewrite ?andb_true_r; try apply in_range_iff; tauto.
Qed.

(** X21: [register] only adds to what the host holds: the registrations
    and log lines already there stay in place, in order, and the
    configuration and the logger are untouched.  With an API key each tool
    it adds is registered as optional, and a host with a logger gets two
    information lines and no warning. *)
Theorem register_only_adds (api : PluginAPI R) :
  (exists tools lines,
     registered (register R api) = (registered api ++ tools)%list
     /\ logged (register R api) = (logged api ++ lines)%list
     /\ Forall (fun r => reg_optional r = true) tools
     /\ (Js.truthy_opt (apiKey (config api)) = true ->
         length tools = 6%nat
         /\ lines = if has_logger api
                    then [(LogInfo, "Linear plugin: initializing...");
                          (LogInfo, "Linear plugin: 6 tools registered")]
                    else []))
  /\ config (register R api) = config api
  /\ has_logger (register R api) = has_logger api.
Proof.
  unfold register. destruct api as [c lg regs ls]. simpl.
  destruct (Js.truthy_opt (apiKey c)); simpl.
  - split.
    + eexists. exists (if lg then [(LogInfo, "Linear plugin: initializing...");
                                   (LogInfo, "Linear plugin: 6 tools registered")]
                       else []).
      destruct lg; unfold log, registerLinearTools, registerTool; simpl;
        rewrite <- ?app_assoc; simpl;
        (split; [reflexivity|]); (split; [now rewrite ?app_nil_r|]);
        (split; [repeat constructor|]); intros _; split; reflexivity.
    + destruct lg; split; reflexivity.
  - split.
    + exists [], (if lg then [missing_key_warning] else []).
      destruct lg; unfold log; simpl; rewrite ?app_nil_r;
        repeat split; trivial; discriminate.
    + destruct lg; split; reflexivity.
Qed.

End BoundsAndRegistration.

(** ** The remaining code on the in-memory workspace *)
Module DemoExtras.

Import Demo.

(** X1 on an identifier of the workspace. *)
Lemma split_head_prefix_witness :
  mem_char "-" "ENG" = false /\ Js.split_head "-" "ENG-123" = "ENG".
Proof.
  split; [reflexivity|].
  exact (proj1 (proj2 (split_head_prefix "-" "ENG-123" "ENG" "123")) eq_refl).
Defined.

(** X2 on the teams of the workspace. *)
Lemma team_resolution_ignores_case_witness :
  Js.toLowerCase "eNg" = Js.toLowerCase "ENG"
  /\ Js.find (key_matches "eNg") (db_teams db0) = Js.find (key_matches "ENG") (db_teams db0).
Proof.
  split; [reflexivity|].
  exact (proj2 (team_resolution_ignores_case "ENG" (db_teams db0)) "eNg" eq_refl).
Defined.

(** X3 on the workspace: eng and ENG. *)
Lemma create_ticket_key_case_witness :
  Js.toLowerCase "ENG" = Js.toLowerCase (cp_projectKey create_in_eng)
  /\ snd (linear_create_ticket service (with_projectKey create_in_eng "ENG") (start db0))
     = snd (linear_create_ticket service create_in_eng (start db0)).
Proof.
  split; [reflexivity|].
  exact (create_ticket_key_case service create_in_eng "ENG" (start db0) eq_refl).
Defined.

(** X4 on a payload of the workspace. *)
Lemma mapIssue_injective_witness :
  mapIssue eng1 = mapIssue eng1 /\ eng1 = eng1.
Proof.
  split; [reflexivity|]. exact (mapIssue_injective eng1 eng1 eq_refl).
Defined.

(** X5 on two tickets of the workspace. *)
Lemma formatTicketList_names_every_ticket_witness :
  In (mapIssue eng2) [mapIssue eng1; mapIssue eng2]
  /\ Js.includes (formatTicketList [mapIssue eng1; mapIssue eng2]) "ENG-2" = true.
Proof.
  assert (H : In (mapIssue eng2) [mapIssue eng1; mapIssue eng2]) by (right; left; reflexivity).
  split; [exact H|].
  exact (proj1 (formatTicketList_names_every_ticket _ _ H)).
Defined.

(** X6 on the user of the workspace. *)
Lemma formatUserList_names_every_user_witness :
  In (mapUser sarah) [mapUser sarah]
  /\ Js.includes (formatUserList [mapUser sarah]) "u-1" = true.
Proof.
  assert (H : In (mapUser sarah) [mapUser sarah]) by (left; reflexivity).
  split; [exact H|].
  exact (proj1 (proj2 (proj2 (formatUserList_names_every_user _ _ H)))).
Defined.

(** X7 on an unassigned ticket of the workspace. *)
Lemma formatTicket_shows_fields_witness :
  assignee (mapIssue eng1) = None
  /\ Js.includes (formatTicket (mapIssue eng1)) "Assignee: Unassigned" = true.
Proof.
  split; [reflexivity|].
  exact (proj1 (proj2 (proj2 (proj2 (proj2 (proj2
           (formatTicket_shows_fields (mapIssue eng1))))))) eq_refl).
Defined.

(** X8 on the statuses of the workspace. *)
Lemma status_not_found_enumerates_witness :
  In in_progress (db_states db0)
  /\ Js.includes (status_not_found "Blocked" (db_states db0)) "In Progress" = true.
Proof.
  assert (H : In in_progress (db_states db0)) by (right; left; reflexivity).
  split; [exact H|].
  exact (proj1 (status_not_found_enumerates "Blocked" (db_states db0) in_progress H)).
Defined.

(** X10 on the workspace: the fourth issue is created in ENG. *)
Lemma create_ticket_responses_witness :
  snd (teams service (remote (start db0))) = Data (db_teams db0)
  /\ Js.find (key_matches (cp_projectKey create_in_eng)) (db_teams db0) = Some eng
  /\ sent (linear_create_ticket service create_in_eng) (start db0)
     = [GetTeams;
        CreateIssue {| new_title := "Rotate keys"; new_teamId := "t-eng";
                       new_description := None; new_assigneeId := None |}]
  /\ outcome (linear_create_ticket service create_in_eng) (start db0)
     = Returned (textResponse ("Created ticket **ENG-4**" ++ Js.nl ++ Js.nl
                               ++ "URL: https://linear.app/demo/issue/ENG-4")).
Proof.
  split; [reflexivity|]. split; [reflexivity|].
  pose (T := create_ticket_responses service create_in_eng (start db0) (db_teams db0) eng
               eq_refl eq_refl).
  split; [exact (proj1 T)|exact (proj2 T)].
Defined.

(** X11 on the workspace: ENG-2 is assigned to the user u-1. *)
Lemma assign_ticket_responses_witness :
  getTicket service "ENG-2" (start db0)
  = (Returned (mapIssue eng2), after (start db0) db0 [GetIssue "ENG-2"])
  /\ sent (linear_assign_ticket service assign_sarah) (start db0)
     = [GetIssue "ENG-2"; UpdateIssue "issue-2" (assignee_only "u-1")]
  /\ outcome (linear_assign_ticket service assign_sarah) (start db0)
     = Returned (textResponse "Assigned **ENG-2** to Sarah Chen").
Proof.
  split; [reflexivity|].
  pose (T := assign_ticket_responses service assign_sarah (start db0)
               (after (start db0) db0 [GetIssue "ENG-2"]) (mapIssue eng2) eng2
               eq_refl eq_refl).
  split; [exact (proj1 T)|exact (proj1 (proj2 T))].
Defined.

(** X12 on the workspace: ENG-9 is the identifier of no ticket. *)
Lemma read_ticket_responses_witness :
  primary_hit (snd (issue service (remote (start db_opaque)) "ENG-9")) = None
  /\ outcome (linear_read_ticket service read_eng9) (start db_opaque)
     = Returned (textResponse "Failed to get ticket: Ticket ENG-9 not found").
Proof.
  split; [reflexivity|].
  exact (proj2 (proj2 (proj2 (read_ticket_responses service read_eng9 (start db_opaque))))
           eq_refl eq_refl).
Defined.

(** X14 on the workspace: the name done resolves to the state Done. *)
Lemma update_ticket_resolved_status_witness :
  Js.find (name_matches "done") (db_states db0) = Some done
  /\ In (UpdateIssue "issue-1"
           {| upd_title := Some "Fix login"; upd_description := None;
              upd_stateId := Some "s-done"; upd_priority := Some 1%Z;
              upd_assigneeId := None |})
        (sent (linear_update_ticket service set_done) (start db0)).
Proof.
  split; [reflexivity|].
  exact (proj2 (proj2 (update_ticket_resolved_status service set_done "done"
                         (start db0) (after (start db0) db0 [GetIssue "ENG-1"])
                         (after (start db0) db0
                            [GetIssue "ENG-1"; GetTeams; GetStates "t-eng"; GetIssue "ENG-1"])
                         (mapIssue eng1) (mapIssue eng1) (db_teams db0) eng
                         (db_states db0) done
                         eq_refl eq_refl eq_refl eq_refl eq_refl eq_refl eq_refl eq_refl))).
Defined.

(** X15 on the workspace behind a broken transport. *)
Lemma update_ticket_lookup_failures_witness :
  Js.truthy_opt (up_status set_done) = true
  /\ linear_update_ticket service set_done (start db_down)
     = (Returned (textResponse "Failed to update ticket: fetch failed"),
        after (start db_down) db_down [GetIssue "ENG-1"; SearchIssue "ENG-1" 1]).
Proof.
  split; [reflexivity|].
  exact (update_ticket_lookup_failures service set_done (start db_down) eq_refl).
Defined.

(** X16 on the workspace. *)
Lemma update_ticket_without_fields_witness :
  up_title touch = None /\ up_description touch = None
  /\ up_status touch = None /\ up_priority touch = None
  /\ sent (linear_update_ticket service touch) (start db0)
     = [GetIssue "ENG-1"; UpdateIssue "issue-1" no_updates].
Proof.
  do 4 (split; [reflexivity|]).
  exact (update_ticket_without_fields service touch (start db0)
           (after (start db0) db0 [GetIssue "ENG-1"]) (mapIssue eng1)
           eq_refl eq_refl eq_refl eq_refl eq_refl).
Defined.

(** X17 on the workspace: a read sends queries only. *)
Lemma mutation_is_last_witness :
  mutating (ReadTicket read_eng9) = false
  /\ queries_only (sent (handle service (ReadTicket read_eng9)) (start db_opaque)) = true.
Proof.
  split; [reflexivity|].
  exact (proj2 (mutation_is_last service (ReadTicket read_eng9) (start db_opaque)) eq_refl).
Defined.

(** X18: the bound of update-ticket is reached where the single-entity
    query does not take identifiers. *)
Lemma requests_bounded_witness :
  length (sent (handle service (UpdateTicket set_done)) (start db_opaque)) = 7%nat
  /\ (length (sent (handle service (UpdateTicket set_done)) (start db_opaque))
      <= request_bound (UpdateTicket set_done))%nat.
Proof.
  split; [reflexivity|].
  exact (proj1 (requests_bounded service (UpdateTicket set_done) (start db_opaque))).
Defined.

(** X19 on the workspace: limit 1. *)
Lemma list_schema_bounds_first_witness :
  check (inputSchema list_tickets_schema) (list_params_object list_eng_one) = true
  /\ exists l,
       sent (linear_list_tickets service list_eng_one) (start db0)
       = [ListIssues (list_filter list_eng_one) l]
       /\ (1 <= l <= 100)%Z
       /\ l = 1%Z.
Proof.
  split; [reflexivity|].
  exact (proj2 (list_schema_bounds_first service list_eng_one (start db0)) eq_refl).
Defined.

(** X20: priority 5 is outside the declared bounds. *)
Lemma update_schema_bounds_priority_witness :
  check (inputSchema update_ticket_schema) (update_params_object too_urgent) <> true.
Proof.
  intros H. apply (proj1 (update_schema_bounds_priority too_urgent)) in H.
  simpl in H. lia.
Defined.

(** X21 on a host with a key and a logger. *)
Lemma register_only_adds_witness :
  config (register service host_with_key) = config host_with_key
  /\ has_logger (register service host_with_key) = true.
Proof. exact (proj2 (register_only_adds service host_with_key)). Defined.

End DemoExtras.
